(** * tri-proof-assist: the annotation canvas of [Board.tsx]

    A shallow embedding of the state model of
    [src/tri-proof-assist/src/components/Canvas/Board.tsx]: the React state of
    the [Board] component, its event handlers, and the JSON document it saves
    and loads.

    Conventions of the embedding.
    - A JavaScript [number] is a [number] below: an exact rational or one of
      the IEEE special values [Infinity], [-Infinity], [NaN].  Rounding to
      binary64 and the sign of zero are not modelled: [Num.mul] and
      [Num.div] are the exact product and quotient, and the literals [1.2]
      and [0.1] stand for 6/5 and 1/10.  Comparisons, [Math.min] and
      [Math.max] are exact in JavaScript too, and so are the clamps of the
      zoom built from them; a value that the code computes as a product or
      a quotient is the [number] given here rounded to binary64, and what is
      proved of it below is proved of the exact value.
    - A JavaScript string is a [string] (its UTF-8 bytes).
    - Each handler reads the state captured by the render it was created in
      and schedules a new state with the [set...] functions; it is a function
      from that state (and the answers of the host) to the next state.  React
      creates the handlers anew with every render, so an event reaches the
      handler of the current state.  The drag-end handler of a [Text] node
      is also given with its captured list apart from the state it fires in
      ([onDragEnd_captured]).
    - Calls that leave the component ([open], [save], [invoke], [JSON.parse],
      [JSON.stringify], image decoding) are answered by a [Host]; what
      [Date.now()] and [confirm] return comes with the event.
    - The cell [imageOffset] is never read or written and is left out. *)

From Stdlib Require Import Ascii String QArith Qminmax Lqa.
From stdpp Require Import base option list strings pretty.

Local Open Scope Q_scope.
Set Warnings "-register-all".

(** ** JavaScript numbers *)

Module Num.

Inductive number : Type :=
  | Fin (q : Q)
  | PInf
  | NInf
  | NaN.

Definition of_Z (z : Z) : number := Fin (inject_Z z).

Definition is_finite (a : number) : bool :=
  match a with Fin _ => true | _ => false end.

(** [a * b], exact: the binary64 product is this value rounded. *)
Definition mul (a b : number) : number :=
  match a, b with
  | NaN, _ | _, NaN => NaN
  | Fin p, Fin q => Fin (Qred (p * q))
  | Fin p, PInf | PInf, Fin p =>
      match p ?= 0 with Gt => PInf | Lt => NInf | Eq => NaN end
  | Fin p, NInf | NInf, Fin p =>
      match p ?= 0 with Gt => NInf | Lt => PInf | Eq => NaN end
  | PInf, PInf | NInf, NInf => PInf
  | PInf, NInf | NInf, PInf => NInf
  end.

(** [a / b], exact: the binary64 quotient is this value rounded.  A zero
    divisor is a positive zero. *)
Definition div (a b : number) : number :=
  match a, b with
  | NaN, _ | _, NaN => NaN
  | Fin p, Fin q =>
      match q ?= 0 with
      | Eq => match p ?= 0 with Gt => PInf | Lt => NInf | Eq => NaN end
      | _ => Fin (Qred (p / q))
      end
  | Fin _, (PInf | NInf) => Fin 0
  | PInf, Fin q => match q ?= 0 with Lt => NInf | _ => PInf end
  | NInf, Fin q => match q ?= 0 with Lt => PInf | _ => NInf end
  | (PInf | NInf), (PInf | NInf) => NaN
  end.

(** [a <= b]; false as soon as one side is [NaN]. *)
Definition leb (a b : number) : bool :=
  match a, b with
  | NaN, _ | _, NaN => false
  | NInf, _ | _, PInf => true
  | _, NInf | PInf, _ => false
  | Fin p, Fin q => Qle_bool p q
  end.

Definition min2 (a b : number) : number :=
  match a, b with
  | NaN, _ | _, NaN => NaN
  | _, _ => if leb a b then a else b
  end.

Definition max2 (a b : number) : number :=
  match a, b with
  | NaN, _ | _, NaN => NaN
  | _, _ => if leb a b then b else a
  end.

(** [Math.min(...args)] and [Math.max(...args)] *)
Definition Math_min (args : list number) : number := foldl min2 PInf args.
Definition Math_max (args : list number) : number := foldl max2 NInf args.

(** [ToBoolean] on a number: [0] and [NaN] are falsy. *)
Definition truthy (a : number) : bool :=
  match a with
  | Fin q => negb (Qeq_bool q 0)
  | PInf | NInf => true
  | NaN => false
  end.

End Num.

Import Num.

(** ** Geometry transform *)

Record Size : Type := { width : number; height : number }.

(** [handleImageImport], lines 76-78: the scale computed in [img.onload]. *)
Definition scaleX (canvasSize img : Size) : number :=
  div (width canvasSize) (width img).
Definition scaleY (canvasSize img : Size) : number :=
  div (height canvasSize) (height img).
Definition scale (canvasSize img : Size) : number :=
  Math_min [scaleX canvasSize img; scaleY canvasSize img; Fin 1].

(** The updater functions passed to [setImageScale] by [zoomIn] and
    [zoomOut]. *)
Definition zoomIn (prev : number) : number :=
  Math_min [mul prev (Fin (6 # 5)); Fin 3].
Definition zoomOut (prev : number) : number :=
  Math_max [div prev (Fin (6 # 5)); Fin (1 # 10)].

(** ** JSON values

    The values [JSON.parse] returns and [JSON.stringify] accepts.  An object
    keeps its members in insertion order. *)

Inductive json : Type :=
  | JNull
  | JBool (b : bool)
  | JNum (n : number)
  | JStr (s : string)
  | JArr (items : list json)
  | JObj (members : list (string * json)).

(** A promise that resolves or rejects, a call that returns or throws. *)
Inductive completion (A : Type) : Type :=
  | Normal (a : A)
  | Throw (err : string).
Arguments Normal {A} a.
Arguments Throw {A} err.

#[global] Instance completion_ret : MRet completion := @Normal.
#[global] Instance completion_bind : MBind completion := fun A B k c =>
  match c with
  | Normal a => k a
  | Throw err => Throw err
  end.

Fixpoint assoc (k : string) (members : list (string * json)) : option json :=
  match members with
  | [] => None
  | (k', v) :: rest => if String.eqb k k' then Some v else assoc k rest
  end.

(** [data.k] for a property name [k] that no prototype defines: a member of
    an object, [undefined] ([None]) on any other value, a [TypeError] on
    [null]. *)
Definition get (data : json) (k : string) : completion (option json) :=
  match data with
  | JNull => Throw "TypeError: Cannot read properties of null"
  | JObj members => Normal (assoc k members)
  | _ => Normal None
  end.

(** [ToBoolean] of a value read from parsed JSON. *)
Definition ToBoolean (v : option json) : bool :=
  match v with
  | None | Some JNull => false
  | Some (JBool b) => b
  | Some (JNum n) => truthy n
  | Some (JStr s) => negb (String.eqb s "")
  | Some (JArr _) | Some (JObj _) => true
  end.

(** [v || d] *)
Definition or_else (v : option json) (d : json) : json :=
  match v with
  | Some j => if ToBoolean v then j else d
  | None => d
  end.

(** What [JSON.parse (JSON.stringify v)] returns for a value [v] built from
    the constructors above: a number that is not finite is written as
    [null]. *)
Fixpoint JSON_norm (v : json) : json :=
  match v with
  | JNum n => if is_finite n then v else JNull
  | JArr items => JArr (List.map JSON_norm items)
  | JObj members => JObj (List.map (fun kv => (fst kv, JSON_norm (snd kv))) members)
  | _ => v
  end.

(** Views of a parsed value at a declared TypeScript type.  The source stores
    parsed values unchecked; a value outside the declared type has no view. *)
Definition as_string (v : json) : option string :=
  match v with JStr s => Some s | _ => None end.
Definition as_number (v : json) : option number :=
  match v with JNum n => Some n | _ => None end.
Definition as_boolean (v : json) : option bool :=
  match v with JBool b => Some b | _ => None end.
Definition as_array {A : Type} (view : json -> option A) (v : json)
  : option (list A) :=
  match v with JArr items => mapM view items | _ => None end.
Definition member {A : Type} (view : json -> option A) (k : string) (v : json)
  : option A :=
  match v with JObj members => assoc k members ≫= view | _ => None end.

(** ** Data model *)

Module TextAnnotation.

Record t : Type := {
  id : string;
  x : number;
  y : number;
  text : string;
  color : string;
  fontSize : number;
}.

Definition to_json (a : t) : json :=
  JObj [("id", JStr (id a)); ("x", JNum (x a)); ("y", JNum (y a));
        ("text", JStr (text a)); ("color", JStr (color a));
        ("fontSize", JNum (fontSize a))].

Definition of_json (v : json) : option t :=
  i ← member as_string "id" v;
  px ← member as_number "x" v;
  py ← member as_number "y" v;
  tx ← member as_string "text" v;
  c ← member as_string "color" v;
  f ← member as_number "fontSize" v;
  Some {| id := i; x := px; y := py; text := tx; color := c; fontSize := f |}.

(** [{ ...a, text: newText }] and [{ ...a, x: x', y: y' }] *)
Definition with_text (a : t) (newText : string) : t :=
  {| id := id a; x := x a; y := y a; text := newText; color := color a;
     fontSize := fontSize a |}.
Definition with_xy (a : t) (x' y' : number) : t :=
  {| id := id a; x := x'; y := y'; text := text a; color := color a;
     fontSize := fontSize a |}.

Definition finite (a : t) : bool :=
  is_finite (x a) && is_finite (y a) && is_finite (fontSize a).

End TextAnnotation.

Module ProofStep.

Record t : Type := {
  id : string;
  because : string;
  therefore : string;
}.

Definition to_json (s : t) : json :=
  JObj [("id", JStr (id s)); ("because", JStr (because s));
        ("therefore", JStr (therefore s))].

Definition of_json (v : json) : option t :=
  i ← member as_string "id" v;
  b ← member as_string "because" v;
  th ← member as_string "therefore" v;
  Some {| id := i; because := b; therefore := th |}.

End ProofStep.

(** An [HTMLImageElement] after [onload]: its source and natural size. *)
Record Image : Type := { src : string; natural : Size }.

(** The [useState] cells of [Board]. *)
Record State : Type := {
  backgroundImage : option Image;
  imagePath : string;
  annotations : list TextAnnotation.t;
  selectedId : option string;
  currentColor : string;
  pendingText : string;
  canvasSize : Size;
  imageScale : number;
  fontSize : number;
  isDarkMode : bool;
  proofSteps : list ProofStep.t;
}.

Definition initial : State := {|
  backgroundImage := None;
  imagePath := "";
  annotations := [];
  selectedId := None;
  currentColor := "#FF0000";
  pendingText := "";
  canvasSize := {| width := Fin 800; height := Fin 600 |};
  imageScale := Fin 1;
  fontSize := Fin 28;
  isDarkMode := false;
  proofSteps := [];
|}.

Definition ids (anns : list TextAnnotation.t) : list string :=
  TextAnnotation.id <$> anns.

(** ** The [set...] functions of the state cells *)

Definition setBackgroundImage (v : option Image) (st : State) : State :=
  {| backgroundImage := v; imagePath := imagePath st;
     annotations := annotations st; selectedId := selectedId st;
     currentColor := currentColor st; pendingText := pendingText st;
     canvasSize := canvasSize st; imageScale := imageScale st;
     fontSize := fontSize st; isDarkMode := isDarkMode st;
     proofSteps := proofSteps st |}.
Definition setImagePath (v : string) (st : State) : State :=
  {| backgroundImage := backgroundImage st; imagePath := v;
     annotations := annotations st; selectedId := selectedId st;
     currentColor := currentColor st; pendingText := pendingText st;
     canvasSize := canvasSize st; imageScale := imageScale st;
     fontSize := fontSize st; isDarkMode := isDarkMode st;
     proofSteps := proofSteps st |}.
Definition setAnnotations (v : list TextAnnotation.t) (st : State) : State :=
  {| backgroundImage := backgroundImage st; imagePath := imagePath st;
     annotations := v; selectedId := selectedId st;
     currentColor := currentColor st; pendingText := pendingText st;
     canvasSize := canvasSize st; imageScale := imageScale st;
     fontSize := fontSize st; isDarkMode := isDarkMode st;
     proofSteps := proofSteps st |}.
Definition setSelectedId (v : option string) (st : State) : State :=
  {| backgroundImage := backgroundImage st; imagePath := imagePath st;
     annotations := annotations st; selectedId := v;
     currentColor := currentColor st; pendingText := pendingText st;
     canvasSize := canvasSize st; imageScale := imageScale st;
     fontSize := fontSize st; isDarkMode := isDarkMode st;
     proofSteps := proofSteps st |}.
Definition setCurrentColor (v : string) (st : State) : State :=
  {| backgroundImage := backgroundImage st; imagePath := imagePath st;
     annotations := annotations st; selectedId := selectedId st;
     currentColor := v; pendingText := pendingText st;
     canvasSize := canvasSize st; imageScale := imageScale st;
     fontSize := fontSize st; isDarkMode := isDarkMode st;
     proofSteps := proofSteps st |}.
Definition setPendingText (v : string) (st : State) : State :=
  {| backgroundImage := backgroundImage st; imagePath := imagePath st;
     annotations := annotations st; selectedId := selectedId st;
     currentColor := currentColor st; pendingText := v;
     canvasSize := canvasSize st; imageScale := imageScale st;
     fontSize := fontSize st; isDarkMode := isDarkMode st;
     proofSteps := proofSteps st |}.
Definition setCanvasSize (v : Size) (st : State) : State :=
  {| backgroundImage := backgroundImage st; imagePath := imagePath st;
     annotations := annotations st; selectedId := selectedId st;
     currentColor := currentColor st; pendingText := pendingText st;
     canvasSize := v; imageScale := imageScale st;
     fontSize := fontSize st; isDarkMode := isDarkMode st;
     proofSteps := proofSteps st |}.
Definition setImageScale (v : number) (st : State) : State :=
  {| backgroundImage := backgroundImage st; imagePath := imagePath st;
     annotations := annotations st; selectedId := selectedId st;
     currentColor := currentColor st; pendingText := pendingText st;
     canvasSize := canvasSize st; imageScale := v;
     fontSize := fontSize st; isDarkMode := isDarkMode st;
     proofSteps := proofSteps st |}.
Definition setFontSize (v : number) (st : State) : State :=
  {| backgroundImage := backgroundImage st; imagePath := imagePath st;
     annotations := annotations st; selectedId := selectedId st;
     currentColor := currentColor st; pendingText := pendingText st;
     canvasSize := canvasSize st; imageScale := imageScale st;
     fontSize := v; isDarkMode := isDarkMode st;
     proofSteps := proofSteps st |}.
Definition setIsDarkMode (v : bool) (st : State) : State :=
  {| backgroundImage := backgroundImage st; imagePath := imagePath st;
     annotations := annotations st; selectedId := selectedId st;
     currentColor := currentColor st; pendingText := pendingText st;
     canvasSize := canvasSize st; imageScale := imageScale st;
     fontSize := fontSize st; isDarkMode := v;
     proofSteps := proofSteps st |}.
Definition setProofSteps (v : list ProofStep.t) (st : State) : State :=
  {| backgroundImage := backgroundImage st; imagePath := imagePath st;
     annotations := annotations st; selectedId := selectedId st;
     currentColor := currentColor st; pendingText := pendingText st;
     canvasSize := canvasSize st; imageScale := imageScale st;
     fontSize := fontSize st; isDarkMode := isDarkMode st;
     proofSteps := v |}.

(** [st |> set1 v1 |> set2 v2]: the updates a handler schedules, in order. *)
Notation "st |> f" := (f st) (at level 45, left associativity, only parsing).

(** ** The host *)

Inductive Effect : Type :=
  | ConsoleError (err : string)
  | Alert (msg : string)
  | SaveFile (path content : string).

Record Host : Type := {
  (** [await open({ filters })]: the chosen path, or [null] *)
  open_dialog : completion (option string);
  (** [await save({ filters })] *)
  save_dialog : completion (option string);
  (** [await invoke('read_file', { path })] *)
  read_file : string -> completion string;
  (** [await invoke('read_image_as_base64', { path })] *)
  read_image_as_base64 : json -> completion string;
  (** [await invoke('save_file', { path, content })] *)
  save_file : string -> string -> completion ();
  (** [JSON.parse(content)] *)
  JSON_parse : string -> completion json;
  (** [JSON.stringify(value, null, 2)] *)
  JSON_stringify : json -> string;
  (** [img.src = data]: the natural size [onload] sees, or no [onload] *)
  decode_image : string -> option Size;
}.

(** A pending [img.onload]. *)
Inductive Callback : Type :=
  | ImportOnload (img : Image) (path : string) (canvas : Size)
  | LoadOnload (img : Image) (path : string).

Record Result : Type := {
  next : State;
  effects : list Effect;
  callback : option Callback;
}.

Definition unchanged (st : State) : Result :=
  {| next := st; effects := []; callback := None |}.

Definition new_Image (h : Host) (data : string) : option Image :=
  sz ← decode_image h data; Some {| src := data; natural := sz |}.

(** ** Handlers *)

(** [img.onload] of [handleImageImport] (lines 74-84) and of [handleLoad]
    (lines 177-180).  The import callback reads the [canvasSize] of the
    render that created it. *)
Definition onload (cb : Callback) (st : State) : State :=
  match cb with
  | ImportOnload img path canvas =>
      st |> setBackgroundImage (Some img)
         |> setImagePath path
         |> setImageScale (scale canvas (natural img))
         |> setAnnotations []
  | LoadOnload img path =>
      st |> setBackgroundImage (Some img)
         |> setImagePath path
  end.

Definition handleImageImport (h : Host) (st : State) : Result :=
  let body : completion (option Callback) :=
    path ← open_dialog h;
    match path with
    | Some path =>
        base64Data ← read_image_as_base64 h (JStr path);
        mret (img ← new_Image h base64Data;
              Some (ImportOnload img path (canvasSize st)))
    | None => mret None
    end in
  match body with
  | Normal cb => {| next := st; effects := []; callback := cb |}
  | Throw err =>
      {| next := st;
         effects := [ConsoleError err; Alert ("导入图片失败: " +:+ err)];
         callback := None |}
  end.

Definition handleCanvasClick (pointerPos : option (number * number)) (now : N)
    (st : State) : State :=
  if String.eqb (pendingText st) "" then st else
  match pointerPos with
  | None => st
  | Some (px, py) =>
      let newAnnotation := {|
        TextAnnotation.id := "text-" +:+ pretty now;
        TextAnnotation.x := px;
        TextAnnotation.y := py;
        TextAnnotation.text := pendingText st;
        TextAnnotation.color := currentColor st;
        TextAnnotation.fontSize := fontSize st |} in
      st |> setAnnotations (annotations st ++ [newAnnotation])
         |> setSelectedId (Some (TextAnnotation.id newAnnotation))
         |> setPendingText ""
  end.

Definition clearCanvas (confirmed : bool) (st : State) : State :=
  if confirmed then st |> setAnnotations [] |> setSelectedId None else st.

Definition handleZoomIn (st : State) : State :=
  st |> setImageScale (zoomIn (imageScale st)).
Definition handleZoomOut (st : State) : State :=
  st |> setImageScale (zoomOut (imageScale st)).

(** [a.id !== selectedId] *)
Definition id_is (sel : option string) (a : TextAnnotation.t) : bool :=
  match sel with
  | Some s => String.eqb (TextAnnotation.id a) s
  | None => false
  end.

Definition deleteSelectedAnnotation (st : State) : State :=
  match selectedId st with
  | Some s =>
      if String.eqb s "" then st else
      st |> setAnnotations
              (List.filter (fun a => negb (id_is (selectedId st) a))
                 (annotations st))
         |> setSelectedId None
  | None => st
  end.

Definition updateAnnotationText (id newText : string) (st : State) : State :=
  st |> setAnnotations
          ((fun a => if String.eqb (TextAnnotation.id a) id
                     then TextAnnotation.with_text a newText else a)
           <$> annotations st).

(** [onDragEnd] of a [Text] node (lines 408-414), as the closure it is.
    [captured] is the [annotations] of the render that created the node and
    [id] is [annotation.id] for the annotation of [captured] the node was
    created for.  The handler maps over [captured], not over the store it
    finds when it fires: it writes [captured], with the new position, over
    the store [st]. *)
Definition onDragEnd_captured (captured : list TextAnnotation.t) (id : string)
    (x' y' : number) (st : State) : State :=
  st |> setAnnotations
          ((fun a => if String.eqb (TextAnnotation.id a) id
                     then TextAnnotation.with_xy a x' y' else a)
           <$> captured).

(** The handler of a node of the render of [st]: its captured list is the
    store.  [id] is the identity of a node of that render, so it is one of
    the store (see [enabled]); React creates the handlers anew with every
    render, so this is the handler an event of the canvas reaches. *)
Definition onDragEnd (id : string) (x' y' : number) (st : State) : State :=
  onDragEnd_captured (annotations st) id x' y' st.

(** [annotations.find(a => a.id === selectedId)] *)
Definition selectedAnnotation (st : State) : option TextAnnotation.t :=
  List.find (id_is (selectedId st)) (annotations st).

(** The object literal passed to [JSON.stringify] (lines 145-151). *)
Definition projectState (st : State) : json :=
  JObj [("imagePath", JStr (imagePath st));
        ("annotations", JArr (TextAnnotation.to_json <$> annotations st));
        ("proofSteps", JArr (ProofStep.to_json <$> proofSteps st));
        ("fontSize", JNum (fontSize st));
        ("isDarkMode", JBool (isDarkMode st))].

Definition handleSave (h : Host) (st : State) : Result :=
  let body : completion (list Effect) :=
    let content := JSON_stringify h (projectState st) in
    path ← save_dialog h;
    match path with
    | Some path =>
        if String.eqb path "" then mret [] else
        _ ← save_file h path content;
        mret [SaveFile path content; Alert "项目已保存!"]
    | None => mret []
    end in
  match body with
  | Normal effs => {| next := st; effects := effs; callback := None |}
  | Throw err =>
      {| next := st; effects := [ConsoleError err; Alert "保存失败"];
         callback := None |}
  end.

(** What the [try] block of [handleLoad] has in hand when it reaches the
    setters (lines 184-188): the pending image, and the four values that
    are passed to the setters. *)
Record Loaded : Type := {
  l_image : option (string * json);
  l_annotations : json;
  l_proofSteps : json;
  l_fontSize : json;
  l_isDarkMode : json;
}.

Definition handleLoad_try (h : Host) : completion (option Loaded) :=
  path ← open_dialog h;
  match path with
  | Some path =>
      content ← read_file h path;
      data ← JSON_parse h content;
      data_imagePath ← get data "imagePath";
      image ← match data_imagePath with
              | Some p =>
                  if ToBoolean data_imagePath then
                    base64Data ← read_image_as_base64 h p;
                    mret (Some (base64Data, p))
                  else mret None
              | None => mret None
              end;
      data_annotations ← get data "annotations";
      data_proofSteps ← get data "proofSteps";
      data_fontSize ← get data "fontSize";
      data_isDarkMode ← get data "isDarkMode";
      mret (Some {|
        l_image := image;
        l_annotations := or_else data_annotations (JArr []);
        l_proofSteps := or_else data_proofSteps (JArr []);
        l_fontSize := or_else data_fontSize (JNum (Fin 28));
        l_isDarkMode := or_else data_isDarkMode (JBool false) |})
  | None => mret None
  end.

(** The setters of [handleLoad], at the declared types of the state cells.
    [None]: the file put a value in a cell that is not of the cell's type. *)
Definition handleLoad_set (h : Host) (d : Loaded) (st : State) : option Result :=
  cb ← match l_image d with
       | Some (base64Data, p) =>
           path ← as_string p;
           Some (img ← new_Image h base64Data; Some (LoadOnload img path))
       | None => Some None
       end;
  anns ← as_array TextAnnotation.of_json (l_annotations d);
  steps ← as_array ProofStep.of_json (l_proofSteps d);
  size ← as_number (l_fontSize d);
  dark ← as_boolean (l_isDarkMode d);
  Some {| next := st |> setAnnotations anns
                     |> setProofSteps steps
                     |> setFontSize size
                     |> setIsDarkMode dark
                     |> setSelectedId None;
          effects := [];
          callback := cb |}.

Definition handleLoad (h : Host) (st : State) : option Result :=
  match handleLoad_try h with
  | Normal (Some d) => handleLoad_set h d st
  | Normal None => Some (unchanged st)
  | Throw err =>
      Some {| next := st; effects := [ConsoleError err; Alert "加载失败"];
              callback := None |}
  end.

(** The effect with an empty dependency list (lines 199-203): it runs once,
    after the first render. *)
Definition seedProofSteps (st : State) : State :=
  if Nat.eqb (length (proofSteps st)) 0 then
    st |> setProofSteps
            [{| ProofStep.id := "1"; ProofStep.because := "";
                ProofStep.therefore := "" |}]
  else st.

(** ** The component as a transition system *)

Definition textTemplates : list string :=
  ["A"; "B"; "C"; "D"; "AB"; "BC"; "AC"; "∠___"; "∠A"; "∠B"; "△ABC"; "△___";
   "___°"; "90°"; "≅"; "⊥"; "∥"].

Inductive Event : Type :=
  | WindowResize (rect : Size)
  | ClickImport
  | ImgOnload (i : nat)
  | StageClick (pointerPos : option (number * number)) (now : N)
  | StageMouseDown
  | TextClick (id : string)
  | TextDragEnd (id : string) (x' y' : number)
  | ClickTemplate (template : string)
  | ClickColor (color : string)
  | ChangeFontSize (value : number)
  | ClickClear (confirmed : bool)
  | ClickTheme
  | ClickZoomIn
  | ClickZoomOut
  | ChangeText (value : string)
  | ClickDelete
  | ClickSave
  | ClickLoad
  | ProofPanelChange (steps : list ProofStep.t).

(** The state cells together with the image callbacks that have not fired. *)
Record World : Type := { ui : State; pending : list Callback }.

(** After the first render both effects have run: the canvas is measured
    and the proof-step list is seeded. *)
Definition mount (rect : Size) : World :=
  {| ui := initial |> setCanvasSize rect |> seedProofSteps; pending := [] |}.

Definition settle (w : World) (r : Result) : World :=
  {| ui := next r;
     pending := pending w ++ match callback r with Some cb => [cb] | None => [] end |}.

Definition pure (w : World) (st : State) : option World :=
  Some {| ui := st; pending := pending w |}.

(** What the rendered tree offers: the [Stage] and its [Text] nodes exist
    only over a background image, the edit panel only for a selected
    annotation. *)
Definition enabled (w : World) (e : Event) : bool :=
  match e with
  | ImgOnload i => bool_decide (i < length (pending w))%nat
  | StageClick _ _ | StageMouseDown =>
      bool_decide (is_Some (backgroundImage (ui w)))
  | TextClick id | TextDragEnd id _ _ =>
      bool_decide (is_Some (backgroundImage (ui w)))
      && bool_decide (id ∈ ids (annotations (ui w)))
  | ChangeText _ | ClickDelete =>
      bool_decide (is_Some (selectedAnnotation (ui w)))
  | ClickTemplate t => bool_decide (t ∈ textTemplates)
  | _ => true
  end.

(** One event, handled by host [h].  [None]: a load stored a value that is
    not of the declared type of its cell. *)
Definition step (h : Host) (e : Event) (w : World) : option World :=
  let st := ui w in
  match e with
  | WindowResize rect => pure w (st |> setCanvasSize rect)
  | ClickImport => Some (settle w (handleImageImport h st))
  | ImgOnload i =>
      cb ← pending w !! i;
      Some {| ui := onload cb st; pending := delete i (pending w) |}
  | StageClick pointerPos now => pure w (handleCanvasClick pointerPos now st)
  | StageMouseDown => pure w (st |> setSelectedId None)
  | TextClick id => pure w (st |> setSelectedId (Some id))
  | TextDragEnd id x' y' => pure w (onDragEnd id x' y' st)
  | ClickTemplate template =>
      pure w (st |> setPendingText
                      (if String.eqb (pendingText st) template then ""
                       else template))
  | ClickColor color => pure w (st |> setCurrentColor color)
  | ChangeFontSize value => pure w (st |> setFontSize value)
  | ClickClear confirmed => pure w (clearCanvas confirmed st)
  | ClickTheme => pure w (st |> setIsDarkMode (negb (isDarkMode st)))
  | ClickZoomIn => pure w (handleZoomIn st)
  | ClickZoomOut => pure w (handleZoomOut st)
  | ChangeText value =>
      match selectedAnnotation st with
      | Some a => pure w (updateAnnotationText (TextAnnotation.id a) value st)
      | None => pure w st
      end
  | ClickDelete => pure w (deleteSelectedAnnotation st)
  | ClickSave => Some (settle w (handleSave h st))
  | ClickLoad => settle w <$> handleLoad h st
  | ProofPanelChange steps => pure w (st |> setProofSteps steps)
  end.

(** A run: each event with the host that answers it. *)
Fixpoint run (events : list (Host * Event)) (w : World) : option World :=
  match events with
  | [] => Some w
  | (h, e) :: rest =>
      if enabled w e then w' ← step h e w; run rest w' else None
  end.

Inductive reachable : World -> Prop :=
  | reachable_mount rect : reachable (mount rect)
  | reachable_step w h e w' :
      reachable w -> enabled w e = true -> step h e w = Some w' ->
      reachable w'.

(** The selection refers to an annotation of the store. *)
Definition selection_live (st : State) : Prop :=
  match selectedId st with
  | Some s => s ∈ ids (annotations st)
  | None => True
  end.

(** The saved document: the five cells [handleSave] writes. *)
Record Document : Type := {
  d_imagePath : string;
  d_annotations : list TextAnnotation.t;
  d_proofSteps : list ProofStep.t;
  d_fontSize : number;
  d_isDarkMode : bool;
}.

Definition document (st : State) : Document :=
  {| d_imagePath := imagePath st; d_annotations := annotations st;
     d_proofSteps := proofSteps st; d_fontSize := fontSize st;
     d_isDarkMode := isDarkMode st |}.

(** ** A host with ECMA-404 text

    [JSON.parse] and [JSON.stringify (_, null, 2)] on UTF-8 text, for hosts
    that can be run.  A number is read exactly; it is written exactly, in
    plain decimal notation without exponent, when it has a finite decimal
    expansion. *)

Module JSON_text.

Local Open Scope N_scope.

Definition is_ws (c : ascii) : bool :=
  let n := N_of_ascii c in
  (n =? 32) || (n =? 9) || (n =? 10) || (n =? 13).

Fixpoint skip_ws (s : string) : string :=
  match s with
  | String c r => if is_ws c then skip_ws r else s
  | EmptyString => s
  end.

Fixpoint strip_prefix (p s : string) : option string :=
  match p, s with
  | EmptyString, _ => Some s
  | String a p', String b s' => if Ascii.eqb a b then strip_prefix p' s' else None
  | String _ _, EmptyString => None
  end.

Definition digit (c : ascii) : option N :=
  let n := N_of_ascii c in
  if (48 <=? n) && (n <=? 57) then Some (n - 48) else None.

Definition hex_digit (c : ascii) : option N :=
  let n := N_of_ascii c in
  if (48 <=? n) && (n <=? 57) then Some (n - 48)
  else if (65 <=? n) && (n <=? 70) then Some (n - 55)
  else if (97 <=? n) && (n <=? 102) then Some (n - 87)
  else None.

(** The longest run of digits: its value after [acc], its length. *)
Fixpoint digits (s : string) (acc : N) (count : nat) : N * nat * string :=
  match s with
  | String c r =>
      match digit c with
      | Some d => digits r (10 * acc + d) (S count)
      | None => (acc, count, s)
      end
  | EmptyString => (acc, count, s)
  end.

(** [m * 10^e] *)
Definition scale10 (m : Z) (e : Z) : Q :=
  if (0 <=? e)%Z then inject_Z (m * 10 ^ e)
  else Qmake m (Z.to_pos (10 ^ (- e))).

Definition parse_number (s : string) : option (Q * string) :=
  let '(negative, s) :=
    match s with String "-" r => (true, r) | _ => (false, s) end in
  int ← match s with
        | String "0" r => Some (0, r)
        | String c _ =>
            match digit c with
            | Some _ => let '(m, _, r) := digits s 0 0 in Some (m, r)
            | None => None
            end
        | EmptyString => None
        end;
  let '(m, s) := int in
  frac ← match s with
         | String "." r =>
             let '(m', k, r') := digits r m 0 in
             if Nat.eqb k 0 then None else Some (m', k, r')
         | _ => Some (m, 0%nat, s)
         end;
  let '(m, k, s) := frac in
  exp ← match s with
        | String c r =>
            if Ascii.eqb c "e" || Ascii.eqb c "E" then
              let '(minus, r) :=
                match r with
                | String "-" r' => (true, r')
                | String "+" r' => (false, r')
                | _ => (false, r)
                end in
              let '(e, n, r') := digits r 0 0 in
              if Nat.eqb n 0 then None
              else Some (if minus then (- Z.of_N e)%Z else Z.of_N e, r')
            else Some (0%Z, s)
        | EmptyString => Some (0%Z, s)
        end;
  let '(e, s) := exp in
  let mant := if negative then (- Z.of_N m)%Z else Z.of_N m in
  Some (Qred (scale10 mant (e - Z.of_nat k)), s).

(** The UTF-8 bytes of a code point; a lone surrogate is written in the
    same three-byte form. *)
Definition utf8 (cp : N) : list ascii :=
  let byte n := ascii_of_N n in
  if cp <? 128 then [byte cp]
  else if cp <? 2048 then [byte (192 + cp / 64); byte (128 + cp mod 64)]
  else if cp <? 65536 then
    [byte (224 + cp / 4096); byte (128 + (cp / 64) mod 64);
     byte (128 + cp mod 64)]
  else
    [byte (240 + cp / 262144); byte (128 + (cp / 4096) mod 64);
     byte (128 + (cp / 64) mod 64); byte (128 + cp mod 64)].

Definition hex4 (s : string) : option (N * string) :=
  match s with
  | String a (String b (String c (String d r))) =>
      x ← hex_digit a; y ← hex_digit b; z ← hex_digit c; w ← hex_digit d;
      Some (4096 * x + 256 * y + 16 * z + w, r)
  | _ => None
  end.

Fixpoint append_bytes (l : list ascii) (s : string) : string :=
  match l with
  | [] => s
  | c :: l' => String c (append_bytes l' s)
  end.

Definition dquote : ascii := ascii_of_N 34.
Definition backslash : ascii := ascii_of_N 92.

(** The characters of a string literal, after its opening quote; [acc] is
    reversed. *)
Fixpoint parse_chars (fuel : nat) (s : string) (acc : list ascii)
  : option (string * string) :=
  match fuel with
  | O => None
  | S fuel =>
      match s with
      | EmptyString => None
      | String c r =>
          if Ascii.eqb c dquote then Some (append_bytes (rev acc) EmptyString, r)
          else if Ascii.eqb c backslash then
            match r with
            | EmptyString => None
            | String e r =>
                let simple b := parse_chars fuel r (ascii_of_N b :: acc) in
                if Ascii.eqb e dquote then simple 34
                else if Ascii.eqb e backslash then simple 92
                else if Ascii.eqb e "/" then simple 47
                else if Ascii.eqb e "b" then simple 8
                else if Ascii.eqb e "f" then simple 12
                else if Ascii.eqb e "n" then simple 10
                else if Ascii.eqb e "r" then simple 13
                else if Ascii.eqb e "t" then simple 9
                else if Ascii.eqb e "u" then
                  '(hi, r1) ← hex4 r;
                  let single := parse_chars fuel r1 (rev (utf8 hi) ++ acc) in
                  if (55296 <=? hi) && (hi <? 56320) then
                    match r1 with
                    | String b (String "u" r2) =>
                        match hex4 r2 with
                        | Some (lo, r3) =>
                            if Ascii.eqb b backslash && (56320 <=? lo)
                               && (lo <? 57344) then
                              parse_chars fuel r3
                                (rev (utf8 (65536 + (hi - 55296) * 1024
                                            + (lo - 56320))) ++ acc)
                            else single
                        | None => single
                        end
                    | _ => single
                    end
                  else single
                else None
            end
          else if N_of_ascii c <? 32 then None
          else parse_chars fuel r (c :: acc)
      end
  end.

(** [CreateDataProperty]: a repeated key keeps its place and takes the
    later value. *)
Fixpoint define (k : string) (v : json) (members : list (string * json))
  : list (string * json) :=
  match members with
  | [] => [(k, v)]
  | (k', v') :: rest =>
      if String.eqb k k' then (k, v) :: rest else (k', v') :: define k v rest
  end.

Fixpoint parse_value (fuel : nat) (s : string) : option (json * string) :=
  match fuel with
  | O => None
  | S fuel =>
      let s := skip_ws s in
      match s with
      | String "{" r =>
          match skip_ws r with
          | String "}" r' => Some (JObj [], r')
          | r' => parse_members fuel r' []
          end
      | String "[" r =>
          match skip_ws r with
          | String "]" r' => Some (JArr [], r')
          | r' => parse_elements fuel r' []
          end
      | String "n" _ => r ← strip_prefix "null" s; Some (JNull, r)
      | String "t" _ => r ← strip_prefix "true" s; Some (JBool true, r)
      | String "f" _ => r ← strip_prefix "false" s; Some (JBool false, r)
      | String c r =>
          if Ascii.eqb c dquote then
            '(str, r') ← parse_chars (S (String.length r)) r [];
            Some (JStr str, r')
          else '(q, r') ← parse_number s; Some (JNum (Fin q), r')
      | EmptyString => None
      end
  end
with parse_elements (fuel : nat) (s : string) (acc : list json)
  : option (json * string) :=
  match fuel with
  | O => None
  | S fuel =>
      '(v, r) ← parse_value fuel s;
      match skip_ws r with
      | String "," r' => parse_elements fuel r' (v :: acc)
      | String "]" r' => Some (JArr (rev (v :: acc)), r')
      | _ => None
      end
  end
with parse_members (fuel : nat) (s : string) (acc : list (string * json))
  : option (json * string) :=
  match fuel with
  | O => None
  | S fuel =>
      match skip_ws s with
      | String c r =>
          if Ascii.eqb c dquote then
            '(k, r1) ← parse_chars (S (String.length r)) r [];
            match skip_ws r1 with
            | String ":" r2 =>
                '(v, r3) ← parse_value fuel r2;
                match skip_ws r3 with
                | String "," r4 => parse_members fuel r4 (define k v acc)
                | String "}" r4 => Some (JObj (define k v acc), r4)
                | _ => None
                end
            | _ => None
            end
          else None
      | EmptyString => None
      end
  end.

Definition parse (content : string) : completion json :=
  match parse_value (2 * String.length content + 2) content with
  | Some (v, r) =>
      match skip_ws r with
      | EmptyString => Normal v
      | _ => Throw "SyntaxError: Unexpected non-whitespace character after JSON"
      end
  | None => Throw "SyntaxError: Unexpected token in JSON"
  end.

(** [JSON.stringify (v, null, 2)] *)

Definition hex_char (n : N) : ascii :=
  ascii_of_N (if n <? 10 then 48 + n else 87 + n).

Fixpoint quote_chars (s : string) : string :=
  match s with
  | EmptyString => String dquote EmptyString
  | String c r =>
      let n := N_of_ascii c in
      let esc e := String backslash (String e (quote_chars r)) in
      if Ascii.eqb c dquote then esc dquote
      else if Ascii.eqb c backslash then esc backslash
      else if n =? 8 then esc "b"%char
      else if n =? 12 then esc "f"%char
      else if n =? 10 then esc "n"%char
      else if n =? 13 then esc "r"%char
      else if n =? 9 then esc "t"%char
      else if n <? 32 then
        String backslash
          ("u00" +:+ String (hex_char (n / 16))
                       (String (hex_char (n mod 16)) (quote_chars r)))
      else String c (quote_chars r)
  end.

Definition quote (s : string) : string := String dquote (quote_chars s).

(** The exponents of 2 and 5 in [d], and what is left of it. *)
Fixpoint strip_factor (fuel : nat) (p d : N) (count : N) : N * N :=
  match fuel with
  | O => (count, d)
  | S fuel =>
      if (1 <? d) && (d mod p =? 0) then strip_factor fuel p (d / p) (count + 1)
      else (count, d)
  end.

Fixpoint zeros (n : nat) : string :=
  match n with
  | O => EmptyString
  | S n' => String "0" (zeros n')
  end.

Definition pad_zeros (n : nat) (s : string) : string :=
  zeros (n - String.length s) +:+ s.

(** A finite number in decimal: exact when the denominator in lowest terms
    divides a power of ten, cut after seventeen decimals when it does not. *)
Definition number_text (q : Q) : string :=
  let q := Qred q in
  let d := Npos (Qden q) in
  let '(a, d2) := strip_factor (N.to_nat (N.size d)) 2 d 0 in
  let '(b, d5) := strip_factor (N.to_nat (N.size d)) 5 d2 0 in
  let k := if d5 =? 1 then N.max a b else 17 in
  let m := Z.abs_N (Qnum q) * 10 ^ k / d in
  let sign := if (Qnum q <? 0)%Z then "-" else EmptyString in
  if k =? 0 then sign +:+ pretty m
  else
    let frac := pad_zeros (N.to_nat k) (pretty (m mod 10 ^ k)) in
    sign +:+ pretty (m / 10 ^ k) +:+ "." +:+ frac.

Fixpoint spaces (n : nat) : string :=
  match n with
  | O => EmptyString
  | S n' => String " " (spaces n')
  end.

Definition newline : string := String (ascii_of_N 10) EmptyString.

Fixpoint stringify_at (indent : nat) (v : json) : string :=
  let inner := (indent + 2)%nat in
  let lines :=
    fix lines (items : list string) : string :=
      match items with
      | [] => EmptyString
      | [item] => spaces inner +:+ item +:+ newline
      | item :: rest => spaces inner +:+ item +:+ "," +:+ newline +:+ lines rest
      end in
  match v with
  | JNull => "null"
  | JBool true => "true"
  | JBool false => "false"
  | JNum (Fin q) => number_text q
  | JNum _ => "null"
  | JStr s => quote s
  | JArr [] => "[]"
  | JArr items =>
      "[" +:+ newline +:+ lines (List.map (stringify_at inner) items)
      +:+ spaces indent +:+ "]"
  | JObj [] => "{}"
  | JObj members =>
      "{" +:+ newline
      +:+ lines (List.map (fun kv => quote (fst kv) +:+ ": "
                                     +:+ stringify_at inner (snd kv)) members)
      +:+ spaces indent +:+ "}"
  end.

Definition stringify (v : json) : string := stringify_at 0 v.

End JSON_text.

(** A host over an in-memory file system: [files] maps a path to its text,
    [images] maps a path to the natural size of the picture stored there,
    [chosen] is the answer of the file dialogs.  The data of an image is
    its path. *)
Definition memory_host (chosen : option string) (files : list (string * string))
    (images : list (string * Size)) : Host :=
  let lookup {A} (k : string) (l : list (string * A)) : option A :=
    snd <$> List.find (fun kv => String.eqb (fst kv) k) l in
  {| open_dialog := Normal chosen;
     save_dialog := Normal chosen;
     read_file path :=
       match lookup path files with
       | Some content => Normal content
       | None => Throw "No such file"
       end;
     read_image_as_base64 p :=
       match p with
       | JStr path =>
           match lookup path images with
           | Some _ => Normal path
           | None => Throw "No such file"
           end
       | _ => Throw "invalid args `path` for command `read_image_as_base64`"
       end;
     save_file _ _ := Normal ();
     JSON_parse := JSON_text.parse;
     JSON_stringify := JSON_text.stringify;
     decode_image data := lookup data images |}.

(** The store's [insert]: a template button arms [token], the next click on
    the stage at [pos] consumes it; [now] is what [Date.now()] returns. *)
Definition insert (token : string) (pos : number * number) (now : N)
    (st : State) : State :=
  st |> setPendingText token |> handleCanvasClick (Some pos) now.

Definition insert_all (clicks : list (string * (number * number) * N))
    (st : State) : State :=
  foldl (fun st click => insert click.1.1 click.1.2 click.2 st) st clicks.

(** The state once the image callback of a result, if any, has fired. *)
Definition settled (r : Result) : State :=
  match callback r with
  | Some cb => onload cb (next r)
  | None => next r
  end.

(** An [onload] of [handleImageImport] that is about to fire. *)
Definition import_onload (w : World) (e : Event) : Prop :=
  match e with
  | ImgOnload i => exists img p c, pending w !! i = Some (ImportOnload img p c)
  | _ => False
  end.

(** The [catch] blocks: [console.error(err)], then [alert(msg)]; no setter
    has run. *)
Definition failure (msg err : string) (st : State) : Result :=
  {| next := st; effects := [ConsoleError err; Alert msg]; callback := None |}.

(** The step the mount effect seeds. *)
Definition blank_step : ProofStep.t :=
  {| ProofStep.id := "1"; ProofStep.because := ""; ProofStep.therefore := "" |}.

(** The host can read the image at [p] and decode it. *)
Definition resolves (h : Host) (p : string) : Prop :=
  exists data, read_image_as_base64 h (JStr p) = Normal data
               /\ is_Some (decode_image h data).

(** The clock readings of a sequence of inserts. *)
Definition issued (clicks : list (string * (number * number) * N)) : list N :=
  (fun click => click.2) <$> clicks.

(** ** Concrete inputs *)

Definition viewport : Size := {| width := Fin 1024; height := Fin 768 |}.

Definition picture_host : Host :=
  memory_host (Some "a.png") []
    [("a.png", {| width := Fin 1600; height := Fin 1000 |})].

(** Import a picture, place the token A at (120, 80) when the clock reads 5,
    import a picture again. *)
Definition reimport_trace : list (Host * Event) :=
  [(picture_host, ClickImport); (picture_host, ImgOnload 0);
   (picture_host, ClickTemplate "A");
   (picture_host, StageClick (Some (Fin 120, Fin 80)) 5%N);
   (picture_host, ClickImport); (picture_host, ImgOnload 0)].

(** A host whose dialogs answer [p.proof], a file holding [content]. *)
Definition file_host (content : string) : Host :=
  memory_host (Some "p.proof") [("p.proof", content)]
    [("a.png", {| width := Fin 1600; height := Fin 1000 |})].

(** The document of the scenario in section 8 of the specification: no
    annotations, no proof steps, font size 28, light mode, no image. *)
Definition empty_document : json :=
  JObj [("annotations", JArr []); ("proofSteps", JArr []);
        ("fontSize", JNum (Fin 28)); ("isDarkMode", JBool false)].

(** A session with one annotation over the picture [a.png]. *)
Definition labelled : State :=
  initial
    |> setBackgroundImage
         (Some {| src := "a.png";
                  natural := {| width := Fin 1600; height := Fin 1000 |} |})
    |> setImagePath "a.png"
    |> seedProofSteps
    |> setCurrentColor "#0000FF"
    |> insert "∠A" (Fin 120, Fin 80) 1700000000000%N.

(** The [Text] nodes drawn with the selection stroke (lines 402-405). *)
Definition highlighted (st : State) : list TextAnnotation.t :=
  List.filter (id_is (selectedId st)) (annotations st).

(** The cells an event of the canvas may not touch. *)
Definition same_project_cells (st st' : State) : Prop :=
  proofSteps st' = proofSteps st
  /\ isDarkMode st' = isDarkMode st
  /\ fontSize st' = fontSize st.

(** The events that edit the proof steps, the theme or the font size. *)
Definition edits_project_cells (e : Event) : bool :=
  match e with
  | ClickLoad | ProofPanelChange _ | ClickTheme | ChangeFontSize _ => true
  | _ => false
  end.

(** A store, as a file can load it, whose only annotation has the empty
    string as identity, selected. *)
Definition nameless : State :=
  initial
    |> setAnnotations
         [{| TextAnnotation.id := ""; TextAnnotation.x := Fin 1;
             TextAnnotation.y := Fin 2; TextAnnotation.text := "A";
             TextAnnotation.color := "#000000";
             TextAnnotation.fontSize := Fin 28 |}]
    |> setSelectedId (Some "").

(** A run of clicks on the zoom buttons: [true] zooms in, [false] out. *)
Definition zoom_clicks (clicks : list bool) (st : State) : State :=
  foldl (fun st (zoom_in : bool) =>
           if zoom_in then handleZoomIn st else handleZoomOut st)
    st clicks.

(** [a'] is [a] with the text replaced when its identity is [id]. *)
Definition text_edit (id newText : string) (a a' : TextAnnotation.t) : Prop :=
  TextAnnotation.id a' = TextAnnotation.id a
  /\ TextAnnotation.x a' = TextAnnotation.x a
  /\ TextAnnotation.y a' = TextAnnotation.y a
  /\ TextAnnotation.color a' = TextAnnotation.color a
  /\ TextAnnotation.fontSize a' = TextAnnotation.fontSize a
  /\ TextAnnotation.text a'
     = if String.eqb (TextAnnotation.id a) id then newText
       else TextAnnotation.text a.


(** The events whose handler calls [setAnnotations]. *)
Definition edits_annotations (e : Event) : bool :=
  match e with
  | ImgOnload _ | StageClick _ _ | TextDragEnd _ _ _ | ClickClear _
  | ChangeText _ | ClickDelete | ClickLoad => true
  | _ => false
  end.

(** * Properties *)

(** ** Geometry transform *)

Section Geometry.

Lemma Qle_bool_false (p q : Q) : Qle_bool p q = false <-> q < p.
Proof.
  destruct (Qle_bool p q) eqn:E.
  - apply Qle_bool_iff in E. split; [discriminate | intros; lra].
  - split; [intros _ | done]. apply Qnot_le_lt. intros H.
    apply Qle_bool_iff in H. congruence.
Qed.

Lemma Qcompare_nonzero (q : Q) : ~ q == 0 -> (q ?= 0) <> Eq.
Proof. intros H E. apply H. by apply Qeq_alt. Qed.

Lemma div_Fin (p q : Q) : ~ q == 0 -> div (Fin p) (Fin q) = Fin (Qred (p / q)).
Proof.
  intros H. unfold div. pose proof (Qcompare_nonzero q H).
  destruct (q ?= 0); congruence.
Qed.

Lemma Math_min3_Fin (a b c : Q) :
  exists q, Math_min [Fin a; Fin b; Fin c] = Fin q /\ q == Qmin (Qmin a b) c.
Proof.
  unfold Math_min; simpl.
  destruct (Qle_bool a b) eqn:Hab; simpl.
  - apply Qle_bool_iff in Hab.
    destruct (Qle_bool a c) eqn:Hac; eexists; (split; [reflexivity|]).
    + apply Qle_bool_iff in Hac.
      rewrite (Q.min_l a b), Q.min_l; [reflexivity|done..].
    + apply Qle_bool_false in Hac.
      rewrite (Q.min_l a b), Q.min_r; [reflexivity|lra|done].
  - apply Qle_bool_false in Hab.
    destruct (Qle_bool b c) eqn:Hbc; eexists; (split; [reflexivity|]).
    + apply Qle_bool_iff in Hbc.
      rewrite (Q.min_r a b), Q.min_l; [reflexivity|lra..].
    + apply Qle_bool_false in Hbc.
      rewrite (Q.min_r a b), Q.min_r; [reflexivity|lra..].
Qed.

(** C4, as the code has it: for a canvas and an image whose four dimensions
    are positive, the scale set on import is
    min (canvas width / image width, canvas height / image height, 1); it
    lies in (0, 1] and does not exceed either ratio. *)
Theorem scale_fits_positive_sizes (cw ch iw ih : Q) :
  0 < cw -> 0 < ch -> 0 < iw -> 0 < ih ->
  exists q,
    scale {| width := Fin cw; height := Fin ch |}
          {| width := Fin iw; height := Fin ih |} = Fin q
    /\ q == Qmin (Qmin (cw / iw) (ch / ih)) 1
    /\ 0 < q /\ q <= 1 /\ q <= Qmin (cw / iw) (ch / ih).
Proof.
  intros Hcw Hch Hiw Hih. unfold scale, scaleX, scaleY; cbn [width height].
  rewrite !div_Fin by lra.
  destruct (Math_min3_Fin (Qred (cw / iw)) (Qred (ch / ih)) 1) as (q & -> & Hq).
  rewrite !Qred_correct in Hq.
  exists q. split; [done|]. split; [done|].
  assert (0 < cw / iw) by (apply Qlt_shift_div_l; lra).
  assert (0 < ch / ih) by (apply Qlt_shift_div_l; lra).
  rewrite Hq. repeat split.
  - apply Q.min_glb_lt; [apply Q.min_glb_lt|]; lra.
  - apply Q.le_min_r.
  - apply Q.le_min_l.
Qed.

Lemma scale_fits_positive_sizes_witness :
  exists q,
    scale {| width := Fin 800; height := Fin 600 |}
          {| width := Fin 1600; height := Fin 1000 |} = Fin q
    /\ q == Qmin (Qmin (800 / 1600) (600 / 1000)) 1
    /\ 0 < q /\ q <= 1 /\ q <= Qmin (800 / 1600) (600 / 1000).
Proof. apply (scale_fits_positive_sizes 800 600 1600 1000); reflexivity. Defined.

(** C4 as stated fails: there is no guard for a zero dimension.  An image
    0 wide and 1000 high on the 800 x 600 canvas gets the scale 3/5, not 1;
    a canvas 0 wide gets the scale 0, outside (0, 1]. *)
Lemma scale_zero_dimension_unguarded :
  scale {| width := Fin 800; height := Fin 600 |}
        {| width := Fin 0; height := Fin 1000 |} = Fin (3 # 5)
  /\ Fin (3 # 5) <> Fin 1
  /\ scale {| width := Fin 0; height := Fin 600 |}
           {| width := Fin 1600; height := Fin 1000 |} = Fin 0.
Proof. split; [reflexivity|]. split; [discriminate|reflexivity]. Qed.

Lemma zoomIn_Fin (q : Q) :
  zoomIn (Fin q) =
  if Qle_bool (Qred (q * (6 # 5))) 3 then Fin (Qred (q * (6 # 5))) else Fin 3.
Proof. reflexivity. Qed.

Lemma zoomOut_Fin (q : Q) :
  zoomOut (Fin q) =
  if Qle_bool (Qred (q / (6 # 5))) (1 # 10) then Fin (1 # 10)
  else Fin (Qred (q / (6 # 5))).
Proof. reflexivity. Qed.

Lemma zoomIn_clamps (q : Q) : 5 # 2 <= q -> zoomIn (Fin q) = Fin 3.
Proof.
  intros Hq. rewrite zoomIn_Fin.
  destruct (Qle_bool _ _) eqn:E; [|done].
  apply Qle_bool_iff in E. rewrite Qred_correct in E.
  f_equal. change 3 with (Qred 3). apply Qred_complete. lra.
Qed.

Lemma zoomIn_grows (q : Q) :
  q < 5 # 2 -> exists q', zoomIn (Fin q) = Fin q' /\ q' == q * (6 # 5).
Proof.
  intros Hq. rewrite zoomIn_Fin.
  destruct (Qle_bool _ _) eqn:E.
  - eexists; split; [done|]. apply Qred_correct.
  - apply Qle_bool_false in E. rewrite Qred_correct in E. lra.
Qed.

Lemma zoomOut_clamps (q : Q) : q <= 3 # 25 -> zoomOut (Fin q) = Fin (1 # 10).
Proof.
  intros Hq. rewrite zoomOut_Fin.
  destruct (Qle_bool _ _) eqn:E; [done|].
  apply Qle_bool_false in E. rewrite Qred_correct in E.
  assert (q / (6 # 5) == q * (5 # 6)) by field. lra.
Qed.

Lemma zoomOut_shrinks (q : Q) :
  3 # 25 < q -> exists q', zoomOut (Fin q) = Fin q' /\ q' == q * (5 # 6).
Proof.
  intros Hq. rewrite zoomOut_Fin.
  assert (q / (6 # 5) == q * (5 # 6)) by field.
  destruct (Qle_bool _ _) eqn:E.
  - apply Qle_bool_iff in E. rewrite Qred_correct in E. lra.
  - eexists; split; [done|]. by rewrite Qred_correct.
Qed.

Lemma iter_fixed {A} (f : A -> A) (a : A) (n : nat) :
  f a = a -> Nat.iter n f a = a.
Proof. intros H. induction n as [|n IH]; simpl; congruence. Qed.

Lemma iter_stays {A} (f : A -> A) (a b : A) :
  f b = b -> (exists n, Nat.iter n f a = b) ->
  exists n, forall m, (n <= m)%nat -> Nat.iter m f a = b.
Proof.
  intros Hb [n Hn]. exists n. intros m Hm.
  replace m with ((m - n) + n)%nat by lia.
  rewrite Nat.iter_add, Hn. by apply iter_fixed.
Qed.

Lemma iter_later {A} (f : A -> A) (a b : A) :
  (exists n, Nat.iter n f (f a) = b) -> exists n, Nat.iter n f a = b.
Proof. intros [n Hn]. exists (S n). by rewrite Nat.iter_succ_r. Qed.

(** Below 5/2 a zoom-in adds a fifth of the scale, so at least [c] when
    [5 * c <= q]: [k] steps of [c] that reach 5/2 bound the number of clicks. *)
Lemma zoomIn_budget (k : nat) :
  forall q c : Q, 0 < c -> 5 * c <= q ->
    5 # 2 <= q + inject_Z (Z.of_nat k) * c ->
    exists n, Nat.iter n zoomIn (Fin q) = Fin 3.
Proof.
  induction k as [|k IH]; intros q c Hc Hcq Hk.
  - exists 1%nat. simpl. apply zoomIn_clamps.
    change (inject_Z (Z.of_nat 0)) with 0 in Hk. lra.
  - destruct (Qlt_le_dec q (5 # 2)) as [Hlt|Hge].
    + destruct (zoomIn_grows q Hlt) as (q' & Hq' & Heq).
      apply iter_later. rewrite Hq'. apply (IH q' c Hc).
      * rewrite Heq. lra.
      * rewrite Nat2Z.inj_succ, <- Z.add_1_r, inject_Z_plus in Hk.
        rewrite Heq. change (inject_Z 1) with 1 in Hk. lra.
    + exists 1%nat. by apply zoomIn_clamps.
Qed.

Lemma zoomIn_reaches (q : Q) :
  0 < q -> exists n, Nat.iter n zoomIn (Fin q) = Fin 3.
Proof.
  intros Hq.
  apply (zoomIn_budget (Pos.to_nat (13 * Qden q)) q (q * (1 # 5))); [lra..|].
  rewrite positive_nat_Z.
  assert (13 # 5 <= inject_Z (Z.pos (13 * Qden q)) * (q * (1 # 5))); [|lra].
  destruct q as [n d]. unfold Qlt, Qle, Qmult, inject_Z in *; simpl in *.
  nia.
Qed.

(** Above 3/25 a zoom-out removes a sixth of the scale, at least 1/50. *)
Lemma zoomOut_budget (k : nat) :
  forall q : Q, q <= (3 # 25) + inject_Z (Z.of_nat k) * (1 # 50) ->
    exists n, Nat.iter n zoomOut (Fin q) = Fin (1 # 10).
Proof.
  induction k as [|k IH]; intros q Hk.
  - exists 1%nat. simpl. apply zoomOut_clamps.
    change (inject_Z (Z.of_nat 0)) with 0 in Hk. lra.
  - destruct (Qlt_le_dec (3 # 25) q) as [Hlt|Hge].
    + destruct (zoomOut_shrinks q Hlt) as (q' & Hq' & Heq).
      apply iter_later. rewrite Hq'. apply (IH q').
      rewrite Nat2Z.inj_succ, <- Z.add_1_r, inject_Z_plus in Hk.
      rewrite Heq. change (inject_Z 1) with 1 in Hk. lra.
    + exists 1%nat. by apply zoomOut_clamps.
Qed.

Lemma zoomOut_reaches (q : Q) :
  exists n, Nat.iter n zoomOut (Fin q) = Fin (1 # 10).
Proof.
  apply (zoomOut_budget (Z.to_nat (50 * Qnum q))).
  assert (q <= inject_Z (Z.of_nat (Z.to_nat (50 * Qnum q))) * (1 # 50)); [|lra].
  destruct q as [n d]. unfold Qle, Qmult, inject_Z; simpl.
  rewrite ZifyInst.of_nat_to_nat_eq. nia.
Qed.

(** C8, as the code has it: on a finite scale [q], zoom-in yields
    min (q * 1.2, 3) and zoom-out yields max (q / 1.2, 0.1); from a positive
    finite scale, repeated zoom-in reaches 3 and stays there; from any
    finite scale, repeated zoom-out reaches 0.1 and stays there. *)
Theorem zoom_clamps_and_converges (q : Q) :
  (exists q', zoomIn (Fin q) = Fin q' /\ q' == Qmin (q * (6 # 5)) 3)
  /\ (exists q', zoomOut (Fin q) = Fin q' /\ q' == Qmax (q / (6 # 5)) (1 # 10))
  /\ (0 < q ->
      exists n, forall m, (n <= m)%nat -> Nat.iter m zoomIn (Fin q) = Fin 3)
  /\ (exists n, forall m, (n <= m)%nat ->
                Nat.iter m zoomOut (Fin q) = Fin (1 # 10)).
Proof.
  repeat split.
  - rewrite zoomIn_Fin. destruct (Qle_bool _ _) eqn:E; eexists; (split; [done|]).
    + apply Qle_bool_iff in E. rewrite Qred_correct in *.
      by rewrite Q.min_l.
    + apply Qle_bool_false in E. rewrite Qred_correct in E.
      rewrite Q.min_r; [done|lra].
  - rewrite zoomOut_Fin. destruct (Qle_bool _ _) eqn:E; eexists; (split; [done|]).
    + apply Qle_bool_iff in E. rewrite Qred_correct in E.
      by rewrite Q.max_r.
    + apply Qle_bool_false in E. rewrite Qred_correct in *.
      rewrite Q.max_l; [done|lra].
  - intros Hq. apply iter_stays; [reflexivity|]. by apply zoomIn_reaches.
  - apply iter_stays; [reflexivity|]. apply zoomOut_reaches.
Qed.

Lemma zoom_clamps_and_converges_witness :
  exists n, forall m, (n <= m)%nat -> Nat.iter m zoomIn (Fin 1) = Fin 3.
Proof.
  destruct (zoom_clamps_and_converges 1) as (_ & _ & H & _).
  apply H. reflexivity.
Defined.

(** The scenario of the specification: three zoom-ins from 1 give 1.2, 1.44
    and 1.728; seven reach the clamp. *)
Example zoomIn_from_one :
  zoomIn (Fin 1) = Fin (6 # 5)
  /\ Nat.iter 2 zoomIn (Fin 1) = Fin (36 # 25)
  /\ Nat.iter 3 zoomIn (Fin 1) = Fin (216 # 125)
  /\ Nat.iter 7 zoomIn (Fin 1) = Fin 3.
Proof. repeat split. Qed.

(** C8 as stated fails for the scale 0, which an import on a canvas of
    width 0 sets: zoom-in leaves it at 0 for ever. *)
Lemma zoomIn_stuck_at_zero :
  scale {| width := Fin 0; height := Fin 600 |}
        {| width := Fin 1600; height := Fin 1000 |} = Fin 0
  /\ (forall n, Nat.iter n zoomIn (Fin 0) = Fin 0)
  /\ ~ (exists n, forall m, (n <= m)%nat -> Nat.iter m zoomIn (Fin 0) = Fin 3).
Proof.
  assert (H : forall n, Nat.iter n zoomIn (Fin 0) = Fin 0)
    by (intros n; by apply iter_fixed).
  split; [reflexivity|]. split; [done|].
  intros [n Hn]. specialize (Hn n (le_n n)). rewrite H in Hn. discriminate.
Qed.

End Geometry.

(** ** Annotation store *)

Section Store.

Implicit Types (st : State) (anns : list TextAnnotation.t).

Lemma identity_inj (m n : N) :
  "text-" +:+ pretty m = "text-" +:+ pretty n -> m = n.
Proof. intros H. simplify_eq/=. by apply (inj pretty). Qed.

Lemma setAnnotations_same st : st |> setAnnotations (annotations st) = st.
Proof. by destruct st. Qed.

Lemma fmap_unless_id (f : TextAnnotation.t -> TextAnnotation.t) id anns :
  id ∉ ids anns ->
  (fun a => if String.eqb (TextAnnotation.id a) id then f a else a) <$> anns
  = anns.
Proof.
  induction anns as [|a anns IH]; intros Hid; [done|].
  cbn in Hid. apply not_elem_of_cons in Hid as [Hne Hid].
  cbn. rewrite IH by done. f_equal.
  destruct (String.eqb_spec (TextAnnotation.id a) id); congruence.
Qed.

Lemma ids_fmap_keep (f : TextAnnotation.t -> TextAnnotation.t) id anns :
  (forall a, TextAnnotation.id (f a) = TextAnnotation.id a) ->
  ids ((fun a => if String.eqb (TextAnnotation.id a) id then f a else a)
       <$> anns)
  = ids anns.
Proof.
  intros Hf. unfold ids. rewrite <- list_fmap_compose. apply list_fmap_ext.
  intros i a _. cbn. by destruct (String.eqb _ _).
Qed.

Lemma ids_insert token pos now st :
  ids (annotations (insert token pos now st)) =
  ids (annotations st)
  ++ (if String.eqb token "" then [] else ["text-" +:+ pretty now]).
Proof.
  unfold insert, handleCanvasClick. destruct pos as [px py].
  cbn [pendingText setPendingText].
  destruct (String.eqb token ""); cbn; [by rewrite app_nil_r|].
  unfold ids. by rewrite fmap_app.
Qed.

(** C2, as the code has it: an identity is the clock reading of its insert,
    so after a sequence of inserts whose clock readings are pairwise distinct
    and are not the readings of identities already in the store, the
    identities of the store are pairwise distinct. *)
Theorem inserts_distinct_when_clock_distinct clicks : forall st,
  NoDup (ids (annotations st)) ->
  NoDup (issued clicks) ->
  (forall n, n ∈ issued clicks ->
             "text-" +:+ pretty n ∉ ids (annotations st)) ->
  NoDup (ids (annotations (insert_all clicks st))).
Proof.
  induction clicks as [|[[t p] n] clicks IH]; intros st Hst Hclk Hfresh; cbn;
    [done|].
  cbn in Hclk. apply NoDup_cons in Hclk as [Hn Hclk].
  apply IH; [|done|].
  - rewrite ids_insert. destruct (String.eqb t ""); [by rewrite app_nil_r|].
    apply NoDup_app. split; [done|]. split; [|apply NoDup_singleton].
    intros i Hi Hi'. apply list_elem_of_singleton in Hi' as ->.
    apply (Hfresh n); [cbn; left|done].
  - intros m Hm. rewrite ids_insert. intros Hin.
    apply elem_of_app in Hin as [Hin|Hin].
    + apply (Hfresh m); [cbn; by right|done].
    + destruct (String.eqb t ""); [by apply elem_of_nil in Hin|].
      apply list_elem_of_singleton in Hin. apply identity_inj in Hin.
      by subst.
Qed.

Lemma inserts_distinct_when_clock_distinct_witness :
  NoDup (ids (annotations
    (insert_all [("A", (Fin 120, Fin 80), 5%N); ("∠B", (Fin 10, Fin 20), 6%N)]
       initial))).
Proof.
  apply inserts_distinct_when_clock_distinct.
  - apply NoDup_nil_2.
  - apply (bool_decide_unpack _). vm_compute. exact I.
  - intros n _. apply not_elem_of_nil.
Defined.

(** C2 as stated fails: two inserts that read the same clock value get the
    same identity. *)
Lemma inserts_same_clock_same_identity :
  ids (annotations
    (insert_all [("A", (Fin 120, Fin 80), 5%N); ("B", (Fin 10, Fin 20), 5%N)]
       initial)) = ["text-5"; "text-5"]
  /\ ~ NoDup (ids (annotations
    (insert_all [("A", (Fin 120, Fin 80), 5%N); ("B", (Fin 10, Fin 20), 5%N)]
       initial))).
Proof.
  split; [reflexivity|]. intros H. apply NoDup_cons in H as [H _].
  apply H. left.
Qed.

(** C6, as the code has it: a click with no pending token changes nothing;
    a click at (x, y) with pending token t appends exactly one annotation
    with position (x, y), text t, the current colour and font size and the
    identity text-<clock reading>, makes it the selection and clears the
    pending token.  The identity differs from the identity of every insert
    made at another clock reading. *)
Theorem canvas_click_inserts_one st x y now :
  let st' := handleCanvasClick (Some (x, y)) now st in
  let a := {| TextAnnotation.id := "text-" +:+ pretty now;
              TextAnnotation.x := x; TextAnnotation.y := y;
              TextAnnotation.text := pendingText st;
              TextAnnotation.color := currentColor st;
              TextAnnotation.fontSize := fontSize st |} in
  (pendingText st = "" -> st' = st)
  /\ (pendingText st ≠ "" ->
      st' = st |> setAnnotations (annotations st ++ [a])
               |> setSelectedId (Some (TextAnnotation.id a))
               |> setPendingText ""
      /\ length (annotations st') = S (length (annotations st))
      /\ forall m, m ≠ now -> "text-" +:+ pretty m ≠ TextAnnotation.id a).
Proof.
  cbv zeta. split.
  - intros H. unfold handleCanvasClick. by rewrite H.
  - intros H. apply String.eqb_neq in H. unfold handleCanvasClick. rewrite H.
    split; [done|]. split.
    + cbn. rewrite length_app. cbn. lia.
    + intros m Hm E. by apply identity_inj in E.
Qed.

Lemma canvas_click_inserts_one_witness :
  let st := initial |> setCurrentColor "#0000FF" |> setPendingText "∠A" in
  annotations (handleCanvasClick (Some (Fin 120, Fin 80)) 5%N st)
  = [{| TextAnnotation.id := "text-5";
        TextAnnotation.x := Fin 120; TextAnnotation.y := Fin 80;
        TextAnnotation.text := "∠A"; TextAnnotation.color := "#0000FF";
        TextAnnotation.fontSize := Fin 28 |}]
  /\ selectedId (handleCanvasClick (Some (Fin 120, Fin 80)) 5%N st)
     = Some "text-5"
  /\ pendingText (handleCanvasClick (Some (Fin 120, Fin 80)) 5%N st) = "".
Proof.
  intros st.
  destruct (canvas_click_inserts_one st (Fin 120) (Fin 80) 5%N) as [_ H].
  destruct H as [-> _]; [discriminate|]. repeat split.
Defined.

(** C6 as stated fails on freshness: a click at clock reading 5 in a store
    that holds the annotation inserted at clock reading 5 appends an
    annotation with the identity that annotation has. *)
Lemma canvas_click_identity_not_fresh :
  let st := initial |> insert "B" (Fin 10, Fin 20) 5%N |> setPendingText "∠A" in
  ids (annotations st) = ["text-5"]
  /\ ids (annotations (handleCanvasClick (Some (Fin 120, Fin 80)) 5%N st))
     = ["text-5"; "text-5"].
Proof. split; reflexivity. Qed.




(** A drag-end for an identity of the store moves that annotation. *)
Example onDragEnd_moves :
  annotations (onDragEnd "text-1700000000000" (Fin 1) (Fin 2) labelled)
  = [{| TextAnnotation.id := "text-1700000000000";
        TextAnnotation.x := Fin 1; TextAnnotation.y := Fin 2;
        TextAnnotation.text := "∠A"; TextAnnotation.color := "#0000FF";
        TextAnnotation.fontSize := Fin 28 |}].
Proof. reflexivity. Qed.

Lemma handleImageImport_next h st : next (handleImageImport h st) = st.
Proof.
  unfold handleImageImport. destruct (open_dialog h) as [[p|]|]; cbn; try done.
  by destruct (read_image_as_base64 h (JStr p)).
Qed.

Lemma handleSave_next h st : next (handleSave h st) = st.
Proof.
  unfold handleSave. destruct (save_dialog h) as [[p|]|]; cbn; try done.
  destruct (String.eqb p ""); cbn; [done|].
  by destruct (save_file h p _).
Qed.

Lemma handleLoad_set_next h d st r :
  handleLoad_set h d st = Some r ->
  exists anns steps size dark,
    as_array TextAnnotation.of_json (l_annotations d) = Some anns
    /\ as_array ProofStep.of_json (l_proofSteps d) = Some steps
    /\ as_number (l_fontSize d) = Some size
    /\ as_boolean (l_isDarkMode d) = Some dark
    /\ next r = st |> setAnnotations anns |> setProofSteps steps
                   |> setFontSize size |> setIsDarkMode dark
                   |> setSelectedId None
    /\ effects r = []
    /\ match callback r with
       | Some (ImportOnload _ _ _) => False
       | _ => True
       end.
Proof.
  unfold handleLoad_set. intros H.
  destruct (match l_image d with Some _ => _ | None => _ end) as [cb|] eqn:Hcb;
    [|done].
  cbn in H.
  destruct (as_array TextAnnotation.of_json _) as [anns|]; [|done].
  destruct (as_array ProofStep.of_json _) as [steps|]; [|done].
  destruct (as_number _) as [size|]; [|done].
  destruct (as_boolean _) as [dark|]; [|done].
  cbn in H. simplify_eq. exists anns, steps, size, dark. repeat split; cbn.
  destruct (l_image d) as [[b p]|]; [|by simplify_eq].
  destruct (as_string p); [|done]. cbn in Hcb. simplify_eq.
  by destruct (new_Image h b).
Qed.

(** Every way out of [handleLoad]. *)
Lemma handleLoad_cases h st r :
  handleLoad h st = Some r ->
  (handleLoad_try h = Normal None /\ r = unchanged st)
  \/ (exists err, handleLoad_try h = Throw err /\ r = failure "加载失败" err st)
  \/ (exists d, handleLoad_try h = Normal (Some d)
                /\ handleLoad_set h d st = Some r).
Proof.
  unfold handleLoad. destruct (handleLoad_try h) as [[d|]|err]; intros H.
  - right. right. by exists d.
  - left. by simplify_eq.
  - right. left. exists err. by simplify_eq.
Qed.

Lemma handleLoad_selection h st r :
  handleLoad h st = Some r -> next r = st \/ selectedId (next r) = None.
Proof.
  intros H.
  destruct (handleLoad_cases _ _ _ H) as [[_ ->]|[(err & _ & ->)|(d & _ & Hd)]];
    [by left..|].
  apply handleLoad_set_next in Hd as (? & ? & ? & ? & _ & _ & _ & _ & -> & _).
  by right.
Qed.

(** Deleting the selected annotation and clearing the canvas reset the
    selection. *)
Lemma deleteSelectedAnnotation_selection st s :
  selectedId st = Some s -> s ≠ "" ->
  selectedId (deleteSelectedAnnotation st) = None
  /\ s ∉ ids (annotations (deleteSelectedAnnotation st)).
Proof.
  intros Hs Hne. unfold deleteSelectedAnnotation. rewrite Hs.
  apply String.eqb_neq in Hne. rewrite Hne. split; [done|]. cbn.
  unfold ids. rewrite list_elem_of_fmap. intros (a & -> & Ha).
  apply list_elem_of_In, filter_In in Ha as [_ Ha].
  cbn in Ha. by rewrite String.eqb_refl in Ha.
Qed.

Lemma clearCanvas_selection st :
  selectedId (clearCanvas true st) = None
  /\ annotations (clearCanvas true st) = [].
Proof. done. Qed.

(** Every step other than the [onload] of an import keeps the selection
    live. *)
Lemma step_selection_live h e w w' :
  selection_live (ui w) -> enabled w e = true -> step h e w = Some w' ->
  ~ import_onload w e -> selection_live (ui w').
Proof.
  intros Hlive Hen Hstep Hno. destruct w as [st pend].
  destruct e; cbn in Hstep, Hen; unfold pure in *; cbn in *; simplify_eq; cbn;
    try done.
  - by rewrite handleImageImport_next.
  - destruct (pend !! i) as [[img p c|img p]|] eqn:Hi; cbn in Hstep;
      simplify_eq; cbn; [|done].
    destruct Hno. by exists img, p, c.
  - unfold handleCanvasClick. destruct (String.eqb _ _); [done|].
    destruct pointerPos as [[px py]|]; [|done].
    unfold selection_live, ids; cbn. rewrite fmap_app. cbn.
    apply elem_of_app. right. by left.
  - apply andb_prop in Hen as [_ Hid]. by apply bool_decide_eq_true in Hid.
  - unfold onDragEnd, onDragEnd_captured, selection_live in *; cbn.
    destruct (selectedId st); [|done].
    by rewrite ids_fmap_keep.
  - unfold clearCanvas. by destruct confirmed.
  - destruct (selectedAnnotation st); simplify_eq; cbn; try done.
    unfold updateAnnotationText, selection_live in *; cbn.
    destruct (selectedId st); [|done].
    by rewrite ids_fmap_keep.
  - unfold deleteSelectedAnnotation.
    destruct (selectedId st) as [s|] eqn:Hs; [|done].
    by destruct (String.eqb s "").
  - by rewrite handleSave_next.
  - destruct (handleLoad h st) as [r|] eqn:Hr; cbn in Hstep; simplify_eq; cbn.
    apply handleLoad_selection in Hr as [->|Hr]; [done|].
    unfold selection_live. by rewrite Hr.
Qed.

Lemma run_reachable events : forall w w',
  reachable w -> run events w = Some w' -> reachable w'.
Proof.
  induction events as [|[h e] events IH]; intros w w' Hw Hrun; cbn in Hrun.
  - by simplify_eq.
  - destruct (enabled w e) eqn:He; [|done].
    destruct (step h e w) as [w1|] eqn:Hs; [|done]. cbn in Hrun.
    eapply IH; [|done]. by eapply reachable_step.
Qed.

(** C3, where the code departs from it: the [onload] of an image import
    empties the store and leaves the selection as it was.  After importing
    a picture, inserting an annotation (which selects it) and importing a
    picture again, the selection is text-5 and the store is empty. *)
Theorem import_leaves_stale_selection :
  exists w,
    run reimport_trace (mount viewport) = Some w
    /\ reachable w
    /\ annotations (ui w) = []
    /\ selectedId (ui w) = Some "text-5"
    /\ ~ selection_live (ui w).
Proof.
  destruct (run reimport_trace (mount viewport)) as [w|] eqn:Hrun;
    [|by vm_compute in Hrun].
  exists w. split; [done|].
  split; [by eapply run_reachable; [apply reachable_mount|]|].
  vm_compute in Hrun. simplify_eq. split; [done|]. split; [done|].
  unfold selection_live; cbn. apply not_elem_of_nil.
Qed.

End Store.

(** ** Project serializer *)

Section Serializer.

Implicit Types (st : State) (h : Host).

Lemma TextAnnotation_of_to_json a :
  TextAnnotation.of_json (TextAnnotation.to_json a) = Some a.
Proof. by destruct a. Qed.

Lemma ProofStep_of_to_json s : ProofStep.of_json (ProofStep.to_json s) = Some s.
Proof. by destruct s. Qed.

Lemma mapM_annotations anns :
  mapM TextAnnotation.of_json (TextAnnotation.to_json <$> anns) = Some anns.
Proof. apply mapM_fmap_Some. exact TextAnnotation_of_to_json. Qed.

Lemma mapM_proofSteps steps :
  mapM ProofStep.of_json (ProofStep.to_json <$> steps) = Some steps.
Proof. apply mapM_fmap_Some. exact ProofStep_of_to_json. Qed.

Lemma JSON_norm_annotation a :
  TextAnnotation.finite a = true ->
  JSON_norm (TextAnnotation.to_json a) = TextAnnotation.to_json a.
Proof.
  destruct a as [i x y t c f]. unfold TextAnnotation.finite; cbn.
  intros H. apply andb_prop in H as [H Hf]. apply andb_prop in H as [Hx Hy].
  by rewrite Hx, Hy, Hf.
Qed.

Lemma JSON_norm_annotations anns :
  Forall (fun a => TextAnnotation.finite a = true) anns ->
  List.map JSON_norm (TextAnnotation.to_json <$> anns)
  = TextAnnotation.to_json <$> anns.
Proof.
  induction 1 as [|a anns Ha _ IH]; [done|].
  rewrite fmap_cons. cbn [List.map]. by rewrite JSON_norm_annotation, IH.
Qed.

Lemma JSON_norm_proofSteps (steps : list ProofStep.t) :
  List.map JSON_norm (ProofStep.to_json <$> steps) = ProofStep.to_json <$> steps.
Proof.
  induction steps as [|s steps IH]; [done|].
  rewrite fmap_cons. cbn [List.map]. by rewrite IH.
Qed.

(** A document of finite numbers is written and read back as it is. *)
Lemma JSON_norm_projectState st :
  Forall (fun a => TextAnnotation.finite a = true) (annotations st) ->
  is_finite (fontSize st) = true ->
  JSON_norm (projectState st) = projectState st.
Proof.
  intros Hanns Hf. unfold projectState. cbn [JSON_norm List.map fst snd].
  by rewrite Hf, JSON_norm_annotations, JSON_norm_proofSteps.
Qed.

(** C1, as the code has it.  Let the host write the document of [st0] and
    read the text back as ECMAScript does
    ([JSON.parse (JSON.stringify v)] is [v] with non-finite numbers as
    [null]).  If the numbers of the document are finite, its font size is
    not 0, and its image path is either empty, as is the image path of the
    state the load starts from, or names an image the host reads and
    decodes, then the load raises no alert and, once the image callback has
    fired, the five fields of the document are those of [st0]. *)
Theorem load_of_save_restores_document h st0 st path :
  open_dialog h = Normal (Some path) ->
  read_file h path = Normal (JSON_stringify h (projectState st0)) ->
  JSON_parse h (JSON_stringify h (projectState st0))
    = Normal (JSON_norm (projectState st0)) ->
  Forall (fun a => TextAnnotation.finite a = true) (annotations st0) ->
  is_finite (fontSize st0) = true ->
  truthy (fontSize st0) = true ->
  (imagePath st0 = "" /\ imagePath st = ""
   \/ imagePath st0 ≠ "" /\ resolves h (imagePath st0)) ->
  exists r, handleLoad h st = Some r
            /\ effects r = []
            /\ document (settled r) = document st0.
Proof.
  intros Hopen Hread Hparse Hfin Hff Hft Himg.
  rewrite JSON_norm_projectState in Hparse by done.
  unfold handleLoad, handleLoad_try. rewrite Hopen; cbn.
  rewrite Hread; cbn. rewrite Hparse; cbn.
  rewrite Hft.
  assert ((if isDarkMode st0 then JBool (isDarkMode st0) else JBool false)
          = JBool (isDarkMode st0)) as -> by (by destruct (isDarkMode st0)).
  destruct Himg as [[H0 Hst]|[H0 (data & Hdata & [sz Hsz])]].
  - rewrite H0; cbn. rewrite mapM_annotations, mapM_proofSteps; cbn.
    eexists; split; [done|]. split; [done|].
    unfold settled, document; cbn. by rewrite Hst, H0.
  - apply String.eqb_neq in H0. rewrite H0; cbn. rewrite Hdata; cbn.
    unfold new_Image. rewrite Hsz; cbn.
    rewrite mapM_annotations, mapM_proofSteps; cbn.
    eexists; split; [done|]. split; [done|].
    by unfold settled, document.
Qed.

Lemma load_of_save_restores_document_witness :
  exists r,
    handleLoad (file_host (JSON_text.stringify (projectState labelled))) initial
      = Some r
    /\ effects r = []
    /\ document (settled r) = document labelled.
Proof.
  apply (load_of_save_restores_document
           (file_host (JSON_text.stringify (projectState labelled)))
           labelled initial "p.proof").
  - reflexivity.
  - vm_compute. reflexivity.
  - vm_compute. reflexivity.
  - repeat constructor.
  - reflexivity.
  - reflexivity.
  - right. split; [discriminate|].
    exists "a.png". split; [reflexivity|]. vm_compute. eauto.
Defined.

(** C1 as stated fails for the font size 0: the text written for a document
    with font size 0 is read back faithfully, and the load sets the font
    size 28. *)
Lemma load_of_save_replaces_fontSize_zero :
  let st0 := initial |> setFontSize (Fin 0) in
  let h := file_host (JSON_text.stringify (projectState st0)) in
  JSON_parse h (JSON_stringify h (projectState st0)) = Normal (projectState st0)
  /\ exists r, handleLoad h initial = Some r
               /\ effects r = []
               /\ fontSize (settled r) = Fin 28
               /\ document (settled r) ≠ document st0.
Proof.
  cbv zeta. split; [vm_compute; reflexivity|].
  eexists. split; [vm_compute; reflexivity|].
  split; [reflexivity|]. split; [reflexivity|]. discriminate.
Qed.

(** The image path is restored only by the image callback: a document
    without image, loaded over a session that has one, keeps the path and
    the picture of that session. *)
Example load_keeps_previous_image_path :
  let h := file_host (JSON_text.stringify (projectState initial)) in
  exists r, handleLoad h labelled = Some r
            /\ effects r = []
            /\ imagePath (settled r) = "a.png"
            /\ imagePath initial = "".
Proof. cbv zeta. eexists. split; [vm_compute; reflexivity|]. repeat split. Qed.

(** What the [try] block hands to the setters once a file was chosen, read
    and parsed. *)
Lemma handleLoad_try_parsed h path content data o :
  open_dialog h = Normal (Some path) ->
  read_file h path = Normal content ->
  JSON_parse h content = Normal data ->
  handleLoad_try h = Normal o ->
  exists d va vp vf vd,
    o = Some d
    /\ get data "annotations" = Normal va
    /\ get data "proofSteps" = Normal vp
    /\ get data "fontSize" = Normal vf
    /\ get data "isDarkMode" = Normal vd
    /\ l_annotations d = or_else va (JArr [])
    /\ l_proofSteps d = or_else vp (JArr [])
    /\ l_fontSize d = or_else vf (JNum (Fin 28))
    /\ l_isDarkMode d = or_else vd (JBool false).
Proof.
  intros Hopen Hread Hparse. unfold handleLoad_try.
  rewrite Hopen; cbn. rewrite Hread; cbn. rewrite Hparse; cbn.
  destruct (get data "imagePath") as [vi|]; cbn; [|done].
  destruct (match vi with Some _ => _ | None => _ end) as [i|]; cbn; [|done].
  destruct (get data "annotations") as [va|]; cbn; [|done].
  destruct (get data "proofSteps") as [vp|]; cbn; [|done].
  destruct (get data "fontSize") as [vf|]; cbn; [|done].
  destruct (get data "isDarkMode") as [vd|]; cbn; [|done].
  intros H. cbv [mret completion_ret] in H. simplify_eq.
  eexists _, va, vp, vf, vd. by repeat split.
Qed.

Lemma handleLoad_try_chosen h path :
  open_dialog h = Normal (Some path) -> handleLoad_try h <> Normal None.
Proof.
  intros Hopen. unfold handleLoad_try. rewrite Hopen; cbn.
  destruct (read_file h path) as [content|]; cbn; [|done].
  destruct (JSON_parse h content) as [data|]; cbn; [|done].
  destruct (get data "imagePath") as [vi|]; cbn; [|done].
  destruct (match vi with Some _ => _ | None => _ end) as [i|]; cbn; [|done].
  destruct (get data "annotations") as [va|]; cbn; [|done].
  destruct (get data "proofSteps") as [vp|]; cbn; [|done].
  destruct (get data "fontSize") as [vf|]; cbn; [|done].
  by destruct (get data "isDarkMode") as [vd|].
Qed.

(** A load that chose a file and raised no alert ran the setters. *)
Lemma handleLoad_succeeded h st path r :
  open_dialog h = Normal (Some path) ->
  handleLoad h st = Some r ->
  effects r = [] ->
  exists d, handleLoad_try h = Normal (Some d)
            /\ handleLoad_set h d st = Some r.
Proof.
  intros Hopen Hload Heff.
  destruct (handleLoad_cases _ _ _ Hload) as [[Hno _]|[(err & _ & ->)|Hd]].
  - by apply handleLoad_try_chosen in Hopen.
  - done.
  - done.
Qed.

(** C5, as the code has it: the blank step is seeded once, by the mount
    effect.  A load that reads a document whose [proofSteps] is missing,
    falsy or the empty array, and raises no alert, leaves the proof-step
    list empty, also after the image callback has fired. *)
Theorem proofSteps_seeded_on_mount_only h st path content data v r rect :
  open_dialog h = Normal (Some path) ->
  read_file h path = Normal content ->
  JSON_parse h content = Normal data ->
  get data "proofSteps" = Normal v ->
  or_else v (JArr []) = JArr [] ->
  handleLoad h st = Some r ->
  effects r = [] ->
  proofSteps (ui (mount rect)) = [blank_step]
  /\ proofSteps (next r) = []
  /\ proofSteps (settled r) = [].
Proof.
  intros Hopen Hread Hparse Hget Hv Hload Heff. split; [done|].
  destruct (handleLoad_succeeded _ _ _ _ Hopen Hload Heff) as (d & Htry & Hset).
  destruct (handleLoad_try_parsed _ _ _ _ _ Hopen Hread Hparse Htry)
    as (d' & va & vp & vf & vd & ? & _ & Hp & _ & _ & _ & Hlp & _).
  rewrite Hget in Hp. simplify_eq.
  destruct (handleLoad_set_next _ _ _ _ Hset)
    as (anns & steps & size & dark & _ & Hsteps & _ & _ & Hnext & _ & Hcb).
  rewrite Hlp, Hv in Hsteps. cbv in Hsteps. simplify_eq.
  unfold settled. rewrite Hnext. destruct (callback r) as [[]|]; done.
Qed.

Lemma proofSteps_seeded_on_mount_only_witness :
  proofSteps (ui (mount viewport)) = [blank_step]
  /\ proofSteps (next (unchanged
       (ui (mount viewport) |> setAnnotations [] |> setProofSteps []
          |> setFontSize (Fin 28) |> setIsDarkMode false
          |> setSelectedId None))) = []
  /\ proofSteps (settled (unchanged
       (ui (mount viewport) |> setAnnotations [] |> setProofSteps []
          |> setFontSize (Fin 28) |> setIsDarkMode false
          |> setSelectedId None))) = [].
Proof.
  apply (proofSteps_seeded_on_mount_only
           (file_host (JSON_text.stringify empty_document))
           (ui (mount viewport)) "p.proof"
           (JSON_text.stringify empty_document) empty_document
           (Some (JArr []))).
  - reflexivity.
  - vm_compute. reflexivity.
  - vm_compute. reflexivity.
  - reflexivity.
  - reflexivity.
  - vm_compute. reflexivity.
  - reflexivity.
Defined.

(** C5 as stated fails: loading the document of the specification's
    scenario, whose [proofSteps] is empty, into the mounted component leaves
    no proof step at all. *)
Lemma load_of_empty_proofSteps_seeds_nothing :
  let h := file_host (JSON_text.stringify empty_document) in
  JSON_parse h (JSON_text.stringify empty_document) = Normal empty_document
  /\ exists r, handleLoad h (ui (mount viewport)) = Some r
               /\ effects r = []
               /\ proofSteps (settled r) = []
               /\ proofSteps (settled r) ≠ [blank_step].
Proof.
  cbv zeta. split; [vm_compute; reflexivity|].
  eexists. split; [vm_compute; reflexivity|].
  split; [reflexivity|]. split; [reflexivity|]. discriminate.
Qed.




(** The other failures of a load leave the state as it was too: the text
    [null], whose [data.imagePath] throws, and an image that cannot be
    read. *)
Lemma handleLoad_null_keeps_state h st path content :
  open_dialog h = Normal (Some path) ->
  read_file h path = Normal content ->
  JSON_parse h content = Normal JNull ->
  exists err, handleLoad h st = Some (failure "加载失败" err st).
Proof.
  intros Hopen Hread Hparse. unfold handleLoad, handleLoad_try.
  rewrite Hopen; cbn. rewrite Hread; cbn. rewrite Hparse; cbn. by eexists.
Qed.

Lemma handleLoad_keeps_state_or_sets_all h st r :
  handleLoad h st = Some r ->
  next r = st
  \/ exists anns steps size dark,
       next r = st |> setAnnotations anns |> setProofSteps steps
                   |> setFontSize size |> setIsDarkMode dark
                   |> setSelectedId None.
Proof.
  intros H.
  destruct (handleLoad_cases _ _ _ H) as [[_ ->]|[(err & _ & ->)|(d & _ & Hd)]];
    [by left..|].
  apply handleLoad_set_next in Hd
    as (anns & steps & size & dark & _ & _ & _ & _ & -> & _).
  right. by exists anns, steps, size, dark.
Qed.

(** C10: after a load that chose a file and raised no alert, the selection
    is none, whatever it was before and whatever the file holds; it is still
    none once the image callback has fired. *)
Theorem handleLoad_clears_selection h st path r :
  open_dialog h = Normal (Some path) ->
  handleLoad h st = Some r ->
  effects r = [] ->
  selectedId (next r) = None /\ selectedId (settled r) = None.
Proof.
  intros Hopen Hload Heff.
  destruct (handleLoad_succeeded _ _ _ _ Hopen Hload Heff) as (d & _ & Hset).
  destruct (handleLoad_set_next _ _ _ _ Hset)
    as (anns & steps & size & dark & _ & _ & _ & _ & Hnext & _ & Hcb).
  unfold settled. rewrite Hnext.
  destruct (callback r) as [[]|]; done.
Qed.

Lemma handleLoad_clears_selection_witness :
  selectedId labelled = Some "text-1700000000000"
  /\ exists r,
       handleLoad (file_host (JSON_text.stringify (projectState labelled)))
         labelled = Some r
       /\ selectedId (next r) = None /\ selectedId (settled r) = None.
Proof.
  split; [reflexivity|].
  destruct (handleLoad (file_host (JSON_text.stringify (projectState labelled)))
              labelled) as [r|] eqn:Hload; [|by vm_compute in Hload].
  exists r. split; [reflexivity|].
  apply (handleLoad_clears_selection
           (file_host (JSON_text.stringify (projectState labelled)))
           labelled "p.proof" r).
  - reflexivity.
  - exact Hload.
  - vm_compute in Hload. injection Hload as <-. reflexivity.
Defined.

End Serializer.

(** ** More on the geometry transform *)

Section FitAndZoom.

Lemma scale_Fin (cw ch iw ih : Q) :
  0 < iw -> 0 < ih ->
  exists q,
    scale {| width := Fin cw; height := Fin ch |}
          {| width := Fin iw; height := Fin ih |} = Fin q
    /\ q == Qmin (Qmin (cw / iw) (ch / ih)) 1.
Proof.
  intros Hiw Hih. unfold scale, scaleX, scaleY; cbn [width height].
  rewrite !div_Fin by lra.
  destruct (Math_min3_Fin (Qred (cw / iw)) (Qred (ch / ih)) 1) as (q & -> & Hq).
  rewrite !Qred_correct in Hq. by exists q.
Qed.

(** X1: an image that is no larger than the canvas in either dimension is
    imported at scale 1: it is never enlarged. *)
Theorem scale_one_when_image_fits (cw ch iw ih : Q) :
  0 < iw -> 0 < ih -> iw <= cw -> ih <= ch ->
  scale {| width := Fin cw; height := Fin ch |}
        {| width := Fin iw; height := Fin ih |} = Fin 1.
Proof.
  intros Hiw Hih Hw Hh. unfold scale, scaleX, scaleY; cbn [width height].
  rewrite !div_Fin by lra.
  assert (1 <= cw / iw) by (apply Qle_shift_div_l; lra).
  assert (1 <= ch / ih) by (apply Qle_shift_div_l; lra).
  unfold Math_min; cbn.
  assert (Hx : forall q, 1 <= q -> Qle_bool (Qred q) 1 = true -> Qred q = 1).
  { intros q Hq Hle. apply Qle_bool_iff in Hle. rewrite Qred_correct in Hle.
    change 1 with (Qred 1). apply Qred_complete. lra. }
  destruct (Qle_bool (Qred (cw / iw)) (Qred (ch / ih))) eqn:E1; cbn.
  - destruct (Qle_bool (Qred (cw / iw)) 1) eqn:E2; [|done].
    f_equal. by apply Hx.
  - destruct (Qle_bool (Qred (ch / ih)) 1) eqn:E2; [|done].
    f_equal. by apply Hx.
Qed.

Lemma scale_one_when_image_fits_witness :
  scale {| width := Fin 800; height := Fin 600 |}
        {| width := Fin 640; height := Fin 600 |} = Fin 1.
Proof.
  apply (scale_one_when_image_fits 800 600 640 600); try reflexivity.
  - unfold Qle; cbn; lia.
  - unfold Qle; cbn; lia.
Defined.

Lemma zoom_step_range (q : Q) :
  1 # 10 <= q -> q <= 3 ->
  (exists a, zoomIn (Fin q) = Fin a /\ q <= a /\ a <= 3)
  /\ (exists b, zoomOut (Fin q) = Fin b /\ 1 # 10 <= b /\ b <= q).
Proof.
  intros Hlo Hhi. split.
  - rewrite zoomIn_Fin. destruct (Qle_bool _ _) eqn:E; eexists; (split; [done|]).
    + apply Qle_bool_iff in E. rewrite Qred_correct in *. lra.
    + lra.
  - rewrite zoomOut_Fin. assert (q / (6 # 5) == q * (5 # 6)) by field.
    destruct (Qle_bool _ _) eqn:E; eexists; (split; [done|]).
    + lra.
    + apply Qle_bool_false in E. rewrite Qred_correct in *. lra.
Qed.

(** X3: from a scale between 0.1 and 3, any run of clicks on the two zoom
    buttons leaves the scale between 0.1 and 3. *)
Theorem zoom_clicks_keep_range (clicks : list bool) :
  forall (st : State) (q : Q),
    imageScale st = Fin q -> 1 # 10 <= q -> q <= 3 ->
    exists q', imageScale (zoom_clicks clicks st) = Fin q'
               /\ 1 # 10 <= q' /\ q' <= 3.
Proof.
  induction clicks as [|c clicks IH]; intros st q Hst Hlo Hhi; cbn.
  - by exists q.
  - destruct (zoom_step_range q Hlo Hhi) as [(a & Ha & ? & ?) (b & Hb & ? & ?)].
    destruct c.
    + apply (IH _ a); [cbn; by rewrite Hst|lra..].
    + apply (IH _ b); [cbn; by rewrite Hst|lra..].
Qed.

Lemma zoom_clicks_keep_range_witness :
  exists q',
    imageScale (zoom_clicks [true; true; false; true; false; false; false]
                  initial) = Fin q'
    /\ 1 # 10 <= q' /\ q' <= 3.
Proof.
  apply (zoom_clicks_keep_range _ initial 1).
  - reflexivity.
  - unfold Qle; cbn; lia.
  - unfold Qle; cbn; lia.
Defined.

(** X4: when the canvas is less than a tenth as wide as the image, the
    import sets a scale below 0.1, and a click on zoom-out then raises the
    scale to 0.1: the picture grows. *)
Theorem zoomOut_enlarges_small_fit (img : Image) (path : string) (st : State)
    (cw ch iw ih : Q) :
  natural img = {| width := Fin iw; height := Fin ih |} ->
  0 < cw -> 0 < ch -> 0 < iw -> 0 < ih ->
  10 * cw < iw ->
  exists q,
    imageScale (onload (ImportOnload img path
                          {| width := Fin cw; height := Fin ch |}) st) = Fin q
    /\ q < 1 # 10
    /\ imageScale
         (handleZoomOut
            (onload (ImportOnload img path
                       {| width := Fin cw; height := Fin ch |}) st))
       = Fin (1 # 10).
Proof.
  intros Hnat Hcw Hch Hiw Hih Hbig.
  destruct (scale_Fin cw ch iw ih Hiw Hih) as (q & Hq & Hmin).
  assert (Hx : cw / iw < 1 # 10) by (apply Qlt_shift_div_r; lra).
  assert (q < 1 # 10).
  { rewrite Hmin. eapply Qle_lt_trans; [apply Q.le_min_l|].
    eapply Qle_lt_trans; [apply Q.le_min_l|done]. }
  exists q.
  cbn [onload imageScale setAnnotations setImageScale handleZoomOut].
  rewrite Hnat, Hq. split; [done|]. split; [done|].
  apply zoomOut_clamps. lra.
Qed.

Lemma zoomOut_enlarges_small_fit_witness :
  exists q,
    imageScale (onload (ImportOnload
                          {| src := "a.png";
                             natural := {| width := Fin 16000;
                                           height := Fin 1000 |} |}
                          "a.png" {| width := Fin 800; height := Fin 600 |})
                  initial) = Fin q
    /\ q < 1 # 10
    /\ imageScale
         (handleZoomOut
            (onload (ImportOnload
                       {| src := "a.png";
                          natural := {| width := Fin 16000;
                                        height := Fin 1000 |} |}
                       "a.png" {| width := Fin 800; height := Fin 600 |})
               initial))
       = Fin (1 # 10).
Proof.
  apply (zoomOut_enlarges_small_fit _ "a.png" initial 800 600 16000 1000);
    reflexivity.
Defined.

End FitAndZoom.

(** ** More on the annotation store *)

Section Editing.

Implicit Types (st : State) (anns : list TextAnnotation.t).

Lemma filter_other_sublist s anns :
  List.filter (fun a => negb (id_is (Some s) a)) anns `sublist_of` anns.
Proof.
  induction anns as [|a anns IH]; cbn; [done|].
  destruct (negb _); by constructor.
Qed.

Lemma elem_of_filter_other s anns a :
  a ∈ List.filter (fun a => negb (id_is (Some s) a)) anns
  <-> a ∈ anns /\ TextAnnotation.id a ≠ s.
Proof.
  rewrite !list_elem_of_In, filter_In. cbn.
  destruct (String.eqb_spec (TextAnnotation.id a) s); cbn;
    intuition congruence.
Qed.

Lemma filter_other_all s anns :
  s ∉ ids anns -> List.filter (fun a => negb (id_is (Some s) a)) anns = anns.
Proof.
  induction anns as [|a anns IH]; intros Hs; [done|].
  cbn in Hs. apply not_elem_of_cons in Hs as [Hne Hs]. cbn [List.filter].
  assert (negb (id_is (Some s) a) = true) as ->.
  { cbn. by destruct (String.eqb_spec (TextAnnotation.id a) s). }
  by rewrite IH.
Qed.

Lemma filter_other_length s anns :
  NoDup (ids anns) -> s ∈ ids anns ->
  S (length (List.filter (fun a => negb (id_is (Some s) a)) anns)) = length anns.
Proof.
  induction anns as [|a anns IH]; intros Hnd Hs; [by apply elem_of_nil in Hs|].
  cbn in Hnd, Hs. apply NoDup_cons in Hnd as [Ha Hnd]. cbn [List.filter].
  destruct (String.eqb_spec (TextAnnotation.id a) s) as [E|Hne].
  - assert (negb (id_is (Some s) a) = false) as ->
      by (cbn; by rewrite (proj2 (String.eqb_eq _ _) E)).
    subst s. by rewrite filter_other_all.
  - assert (negb (id_is (Some s) a) = true) as ->
      by (cbn; by rewrite (proj2 (String.eqb_neq _ _) Hne)).
    apply elem_of_cons in Hs as [Hs|Hs]; [congruence|].
    cbn [length]. by rewrite IH.
Qed.

(** X5: deleting with a non-empty selection [s] resets the selection and
    keeps exactly the annotations whose identity is not [s], in their order;
    when the identities are pairwise distinct and [s] is one of them, the
    store shrinks by exactly one annotation. *)
Theorem delete_removes_exactly_the_selected st s :
  selectedId st = Some s -> s ≠ "" ->
  selectedId (deleteSelectedAnnotation st) = None
  /\ (forall a, a ∈ annotations (deleteSelectedAnnotation st)
                <-> a ∈ annotations st /\ TextAnnotation.id a ≠ s)
  /\ annotations (deleteSelectedAnnotation st) `sublist_of` annotations st
  /\ (NoDup (ids (annotations st)) -> s ∈ ids (annotations st) ->
      S (length (annotations (deleteSelectedAnnotation st)))
      = length (annotations st)).
Proof.
  intros Hs Hne. unfold deleteSelectedAnnotation. rewrite Hs.
  apply String.eqb_neq in Hne. rewrite Hne. cbn.
  split; [done|]. split; [apply elem_of_filter_other|].
  split; [apply filter_other_sublist|]. apply filter_other_length.
Qed.

Lemma delete_removes_exactly_the_selected_witness :
  selectedId (deleteSelectedAnnotation labelled) = None
  /\ (forall a, a ∈ annotations (deleteSelectedAnnotation labelled)
                <-> a ∈ annotations labelled
                    /\ TextAnnotation.id a ≠ "text-1700000000000")
  /\ annotations (deleteSelectedAnnotation labelled)
       `sublist_of` annotations labelled
  /\ (NoDup (ids (annotations labelled)) ->
      "text-1700000000000" ∈ ids (annotations labelled) ->
      S (length (annotations (deleteSelectedAnnotation labelled)))
      = length (annotations labelled)).
Proof.
  apply (delete_removes_exactly_the_selected labelled "text-1700000000000").
  - reflexivity.
  - discriminate.
Defined.

(** X6: an annotation whose identity is the empty string (a loaded file can
    hold one) can be selected, and the edit panel is shown for it, but the
    delete button does nothing: the handler tests the selection for
    truthiness. *)
Theorem delete_ignores_empty_identity st :
  selectedId st = Some "" -> "" ∈ ids (annotations st) ->
  is_Some (selectedAnnotation st) /\ deleteSelectedAnnotation st = st.
Proof.
  intros Hs Hin. split.
  - unfold selectedAnnotation. rewrite Hs.
    unfold ids in Hin. apply list_elem_of_fmap in Hin as (a & Ha & Hin).
    apply list_elem_of_In in Hin.
    destruct (List.find _ _) eqn:Hf; [done|].
    eapply find_none in Hf; [|done]. cbn in Hf. rewrite <- Ha in Hf.
    by rewrite String.eqb_refl in Hf.
  - unfold deleteSelectedAnnotation. by rewrite Hs.
Qed.

Lemma delete_ignores_empty_identity_witness :
  is_Some (selectedAnnotation nameless)
  /\ deleteSelectedAnnotation nameless = nameless.
Proof.
  apply delete_ignores_empty_identity.
  - reflexivity.
  - cbn. left.
Defined.

(** X7: inserting with a token and an identity that is new to the store,
    then deleting (the insert selected the new annotation), gives back the
    annotation list as it was, with no selection. *)
Theorem insert_then_delete_restores token pos now st :
  token ≠ "" -> "text-" +:+ pretty now ∉ ids (annotations st) ->
  annotations (deleteSelectedAnnotation (insert token pos now st))
  = annotations st
  /\ selectedId (deleteSelectedAnnotation (insert token pos now st)) = None.
Proof.
  intros Ht Hfresh. apply String.eqb_neq in Ht.
  unfold insert, handleCanvasClick. destruct pos as [px py].
  cbn [pendingText setPendingText]. rewrite Ht.
  unfold deleteSelectedAnnotation. cbn. split; [|done].
  rewrite List.filter_app. cbn. rewrite String.eqb_refl. cbn.
  rewrite app_nil_r. by apply (filter_other_all ("text-" +:+ pretty now)).
Qed.

Lemma insert_then_delete_restores_witness :
  annotations (deleteSelectedAnnotation
                 (insert "∠B" (Fin 10, Fin 20) 1700000000001%N labelled))
  = annotations labelled
  /\ selectedId (deleteSelectedAnnotation
                   (insert "∠B" (Fin 10, Fin 20) 1700000000001%N labelled))
     = None.
Proof.
  apply insert_then_delete_restores.
  - discriminate.
  - apply (bool_decide_unpack _). vm_compute. exact I.
Defined.

(** X8: a click that had a pointer position consumes the token: whatever
    the state before it, a further click changes nothing until a template
    is armed again. *)
Theorem click_consumes_token st x y now pos' now' :
  handleCanvasClick pos' now' (handleCanvasClick (Some (x, y)) now st)
  = handleCanvasClick (Some (x, y)) now st.
Proof.
  unfold handleCanvasClick at 2 3.
  destruct (String.eqb (pendingText st) "") eqn:E.
  - unfold handleCanvasClick. by rewrite E.
  - reflexivity.
Qed.

(** X9: editing the text of [id] keeps the number and order of the
    annotations and every identity, position, colour and font size; it sets
    the text, which may be empty, of each annotation whose identity is [id]
    and of no other; the selection stays; for an identity that is not in
    the store the state is unchanged. *)
Theorem updateAnnotationText_edits_only_text st id newText :
  Forall2 (text_edit id newText) (annotations st)
    (annotations (updateAnnotationText id newText st))
  /\ selectedId (updateAnnotationText id newText st) = selectedId st
  /\ (id ∉ ids (annotations st) -> updateAnnotationText id newText st = st).
Proof.
  split; [|split; [done|]].
  - unfold updateAnnotationText; cbn.
    induction (annotations st) as [|a anns IH]; [constructor|].
    rewrite fmap_cons. constructor; [|done].
    unfold text_edit. by destruct (String.eqb _ _).
  - intros Hid. unfold updateAnnotationText.
    rewrite fmap_unless_id by done. apply setAnnotations_same.
Qed.

Lemma setAnnotations_fmap_twice
    (f g : TextAnnotation.t -> TextAnnotation.t) st :
  setAnnotations
    (f <$> annotations (setAnnotations (g <$> annotations st) st))
    (setAnnotations (g <$> annotations st) st)
  = setAnnotations ((f ∘ g) <$> annotations st) st.
Proof. cbn. by rewrite <- list_fmap_compose. Qed.

(** X10: of two drags of the same annotation the later one decides; drags
    of annotations with different identities commute; a drag and a text
    edit commute, whatever their identities. *)
Theorem drags_and_edits_compose st id1 id2 x1 y1 x2 y2 newText :
  onDragEnd id1 x2 y2 (onDragEnd id1 x1 y1 st) = onDragEnd id1 x2 y2 st
  /\ (id1 ≠ id2 ->
      onDragEnd id1 x1 y1 (onDragEnd id2 x2 y2 st)
      = onDragEnd id2 x2 y2 (onDragEnd id1 x1 y1 st))
  /\ updateAnnotationText id2 newText (onDragEnd id1 x1 y1 st)
     = onDragEnd id1 x1 y1 (updateAnnotationText id2 newText st).
Proof.
  unfold onDragEnd, onDragEnd_captured, updateAnnotationText.
  rewrite !setAnnotations_fmap_twice. repeat split.
  - f_equal. apply list_fmap_ext. intros _ a _. cbn.
    destruct (String.eqb (TextAnnotation.id a) id1) eqn:E; cbn; by rewrite E.
  - intros Hne. f_equal. apply list_fmap_ext. intros _ a _. cbn.
    destruct (String.eqb (TextAnnotation.id a) id1) eqn:E1;
      destruct (String.eqb (TextAnnotation.id a) id2) eqn:E2; cbn;
      rewrite ?E1, ?E2; try done.
    apply String.eqb_eq in E1, E2. congruence.
  - f_equal. apply list_fmap_ext. intros _ a _. cbn.
    destruct (String.eqb (TextAnnotation.id a) id1) eqn:E1;
      destruct (String.eqb (TextAnnotation.id a) id2) eqn:E2; cbn;
      by rewrite ?E1, ?E2.
Qed.

(** X11: the edit panel has an annotation to show exactly when the
    selection is the identity of an annotation of the store, and that
    annotation is one of the store that carries the selected identity. *)
Theorem selectedAnnotation_iff_live st :
  (is_Some (selectedAnnotation st)
   <-> exists s, selectedId st = Some s /\ s ∈ ids (annotations st))
  /\ (forall a, selectedAnnotation st = Some a ->
        a ∈ annotations st /\ selectedId st = Some (TextAnnotation.id a)).
Proof.
  unfold selectedAnnotation. split.
  - split.
    + intros [a Ha]. apply find_some in Ha as [Hin Hid].
      destruct (selectedId st) as [s|]; [|done]. cbn in Hid.
      apply String.eqb_eq in Hid. exists s. split; [done|].
      unfold ids. apply list_elem_of_fmap. exists a.
      split; [done|]. by apply list_elem_of_In.
    + intros (s & -> & Hin). unfold ids in Hin.
      apply list_elem_of_fmap in Hin as (a & -> & Hin).
      apply list_elem_of_In in Hin.
      destruct (List.find _ _) eqn:Hf; [done|].
      eapply find_none in Hf; [|done]. cbn in Hf.
      by rewrite String.eqb_refl in Hf.
  - intros a Ha. apply find_some in Ha as [Hin Hid].
    destruct (selectedId st) as [s|]; [|done]. cbn in Hid.
    apply String.eqb_eq in Hid. split; [by apply list_elem_of_In|by subst].
Qed.

Lemma highlighted_nil s anns :
  s ∉ ids anns -> List.filter (id_is (Some s)) anns = [].
Proof.
  induction anns as [|a anns IH]; intros Hs; [done|].
  cbn in Hs. apply not_elem_of_cons in Hs as [Hne Hs]. cbn.
  destruct (String.eqb_spec (TextAnnotation.id a) s); [congruence|]. by apply IH.
Qed.

(** X12: when the identities of the store are pairwise distinct, at most
    one annotation is drawn with the selection stroke, and it is the one the
    edit panel shows. *)
Theorem highlighted_at_most_one st :
  NoDup (ids (annotations st)) ->
  (length (highlighted st) <= 1)%nat
  /\ head (highlighted st) = selectedAnnotation st.
Proof.
  unfold highlighted, selectedAnnotation.
  generalize (annotations st). intros anns Hnd.
  destruct (selectedId st) as [s|].
  - induction anns as [|a anns IH]; [cbn; split; [lia|done]|].
    cbn in Hnd. apply NoDup_cons in Hnd as [Ha Hnd].
    cbn [List.filter List.find].
    destruct (id_is (Some s) a) eqn:E.
    + cbn in E. apply String.eqb_eq in E. subst s.
      rewrite (highlighted_nil _ _ Ha). cbn. split; [lia|done].
    + by apply IH.
  - induction anns as [|a anns IH]; [cbn; split; [lia|done]|].
    cbn in Hnd. apply NoDup_cons in Hnd as [Ha Hnd].
    cbn [List.filter List.find id_is]. by apply IH.
Qed.

Lemma highlighted_at_most_one_witness :
  (length (highlighted labelled) <= 1)%nat
  /\ head (highlighted labelled) = selectedAnnotation labelled.
Proof.
  apply highlighted_at_most_one.
  apply (bool_decide_unpack _). vm_compute. exact I.
Defined.

(** With a shared identity every annotation that carries it is drawn
    highlighted. *)
Example highlighted_duplicates :
  length (highlighted
            (insert_all [("A", (Fin 120, Fin 80), 5%N);
                         ("B", (Fin 10, Fin 20), 5%N)] initial)) = 2%nat.
Proof. reflexivity. Qed.

End Editing.

(** ** Invariants of the component *)

Section Invariants.

Implicit Types (st : State) (w : World) (h : Host) (e : Event).

Lemma handleLoad_frame h st r :
  handleLoad h st = Some r ->
  backgroundImage (next r) = backgroundImage st
  /\ imagePath (next r) = imagePath st
  /\ currentColor (next r) = currentColor st
  /\ pendingText (next r) = pendingText st
  /\ canvasSize (next r) = canvasSize st
  /\ imageScale (next r) = imageScale st.
Proof.
  intros H.
  destruct (handleLoad_cases _ _ _ H) as [[_ ->]|[(err & _ & ->)|(d & _ & Hd)]];
    [done..|].
  by apply handleLoad_set_next in Hd as (? & ? & ? & ? & _ & _ & _ & _ & -> & _).
Qed.

(** X13: in every reachable state the pending token is empty or one of the
    seventeen templates. *)
Theorem pendingText_is_a_template w :
  reachable w -> pendingText (ui w) = "" \/ pendingText (ui w) ∈ textTemplates.
Proof.
  induction 1 as [rect|w h e w' Hw IH Hen Hstep]; [by left|].
  destruct w as [st pend].
  destruct e; cbn in Hstep, Hen; unfold pure in *; cbn in *; simplify_eq; cbn;
    try done.
  - by rewrite handleImageImport_next.
  - destruct (pend !! i) as [[img p c|img p]|]; cbn in Hstep; by simplify_eq.
  - unfold handleCanvasClick. destruct (String.eqb _ _); [done|].
    destruct pointerPos as [[px py]|]; [by left|done].
  - destruct (String.eqb _ _); [by left|]. right.
    by apply bool_decide_eq_true in Hen.
  - unfold clearCanvas. by destruct confirmed.
  - by destruct (selectedAnnotation st); simplify_eq.
  - unfold deleteSelectedAnnotation. destruct (selectedId st) as [s|]; [|done].
    by destruct (String.eqb s "").
  - by rewrite handleSave_next.
  - destruct (handleLoad h st) as [r|] eqn:Hr; cbn in Hstep; simplify_eq; cbn.
    apply handleLoad_frame in Hr as (_ & _ & _ & -> & _). done.
Qed.

Lemma pendingText_is_a_template_witness :
  match run reimport_trace (mount viewport) with
  | Some w => pendingText (ui w) = "" \/ pendingText (ui w) ∈ textTemplates
  | None => True
  end.
Proof.
  destruct (run reimport_trace (mount viewport)) as [w|] eqn:Hrun; [|exact I].
  apply pendingText_is_a_template.
  eapply run_reachable; [apply reachable_mount|exact Hrun].
Defined.

(** X14: in every reachable state without a background image the image
    path is empty: the two cells are only ever set together. *)
Theorem imagePath_only_with_image w :
  reachable w -> backgroundImage (ui w) = None -> imagePath (ui w) = "".
Proof.
  induction 1 as [rect|w h e w' Hw IH Hen Hstep]; [done|].
  destruct w as [st pend].
  destruct e; cbn in Hstep, Hen; unfold pure in *; cbn in *; simplify_eq; cbn;
    try done.
  - by rewrite handleImageImport_next.
  - destruct (pend !! i) as [[img p c|img p]|]; cbn in Hstep; by simplify_eq.
  - unfold handleCanvasClick. destruct (String.eqb _ _); [done|].
    by destruct pointerPos as [[px py]|].
  - unfold clearCanvas. by destruct confirmed.
  - by destruct (selectedAnnotation st); simplify_eq.
  - unfold deleteSelectedAnnotation. destruct (selectedId st) as [s|]; [|done].
    by destruct (String.eqb s "").
  - by rewrite handleSave_next.
  - destruct (handleLoad h st) as [r|] eqn:Hr; cbn in Hstep; simplify_eq; cbn.
    apply handleLoad_frame in Hr as (-> & -> & _). done.
Qed.

Lemma imagePath_only_with_image_witness :
  imagePath (ui (mount viewport)) = "".
Proof.
  apply imagePath_only_with_image.
  - apply reachable_mount.
  - reflexivity.
Defined.

(** X15: in every reachable state the selection is the identity of an
    annotation of the store, or the store is empty. *)
Theorem selection_live_or_store_empty w :
  reachable w -> selection_live (ui w) \/ annotations (ui w) = [].
Proof.
  induction 1 as [rect|w h e w' Hw IH Hen Hstep]; [by left|].
  destruct IH as [Hlive|Hempty].
  - destruct e; try (left; eapply step_selection_live; [done..|by intros []]).
    destruct w as [st pend]. cbn in Hstep.
    destruct (pend !! i) as [[img p c|img p]|] eqn:Hi; cbn in Hstep;
      simplify_eq; cbn.
    + by right.
    + left. exact Hlive.
  - destruct w as [st pend]. cbn in Hempty.
    destruct e; cbn in Hstep, Hen; unfold pure in *; cbn in *; simplify_eq; cbn;
      try (by right).
    + right. by rewrite handleImageImport_next.
    + destruct (pend !! i) as [[img p c|img p]|]; cbn in Hstep;
        simplify_eq; by right.
    + unfold handleCanvasClick. destruct (String.eqb _ _); [by right|].
      destruct pointerPos as [[px py]|]; [|by right].
      left. unfold selection_live, ids; cbn. rewrite fmap_app. cbn.
      apply elem_of_app. right. by left.
    + right. by rewrite Hempty.
    + unfold clearCanvas. destruct confirmed; by right.
    + destruct (selectedAnnotation st); simplify_eq; cbn; right;
        by rewrite ?Hempty.
    + unfold deleteSelectedAnnotation.
      destruct (selectedId st) as [s|]; [|by right].
      destruct (String.eqb s ""); [by right|by left].
    + right. by rewrite handleSave_next.
    + destruct (handleLoad h st) as [r|] eqn:Hr; cbn in Hstep; simplify_eq; cbn.
      apply handleLoad_selection in Hr as [->|Hr]; [by right|].
      left. unfold selection_live. by rewrite Hr.
Qed.

Lemma selection_live_or_store_empty_witness :
  match run reimport_trace (mount viewport) with
  | Some w => selection_live (ui w) \/ annotations (ui w) = []
  | None => True
  end.
Proof.
  destruct (run reimport_trace (mount viewport)) as [w|] eqn:Hrun; [|exact I].
  apply selection_live_or_store_empty.
  eapply run_reachable; [apply reachable_mount|exact Hrun].
Defined.

(** X16: the proof steps, the theme and the font size for new annotations
    change only through the proof panel, the theme button, the size slider
    and a load: no other event touches them. *)
Theorem canvas_events_keep_project_cells h e w w' :
  edits_project_cells e = false -> step h e w = Some w' ->
  same_project_cells (ui w) (ui w').
Proof.
  intros He Hstep. destruct w as [st pend]. unfold same_project_cells.
  destruct e; try discriminate He; cbn in Hstep; unfold pure in *; cbn in *;
    simplify_eq; cbn; try done.
  - by rewrite handleImageImport_next.
  - destruct (pend !! i) as [[img p c|img p]|]; cbn in Hstep; by simplify_eq.
  - unfold handleCanvasClick. destruct (String.eqb _ _); [done|].
    by destruct pointerPos as [[px py]|].
  - unfold clearCanvas. by destruct confirmed.
  - by destruct (selectedAnnotation st); simplify_eq.
  - unfold deleteSelectedAnnotation. destruct (selectedId st) as [s|]; [|done].
    by destruct (String.eqb s "").
  - by rewrite handleSave_next.
Qed.

Lemma canvas_events_keep_project_cells_witness :
  same_project_cells labelled (clearCanvas true labelled).
Proof.
  apply (canvas_events_keep_project_cells picture_host (ClickClear true)
           {| ui := labelled; pending := [] |}
           {| ui := clearCanvas true labelled; pending := [] |});
    reflexivity.
Defined.

(** X17: resizing the window, zooming, arming a template, choosing a colour,
    moving the size slider, switching the theme, selecting, saving, starting
    an import and editing the proof steps leave every annotation as it is:
    nothing is rescaled, recoloured or resized. *)
Theorem view_events_keep_annotations h e w w' :
  edits_annotations e = false -> step h e w = Some w' ->
  annotations (ui w') = annotations (ui w).
Proof.
  intros He Hstep. destruct w as [st pend].
  destruct e; try discriminate He; cbn in Hstep; unfold pure in *; cbn in *;
    simplify_eq; cbn; try done.
  - by rewrite handleImageImport_next.
  - by rewrite handleSave_next.
Qed.

Lemma view_events_keep_annotations_witness :
  annotations (handleZoomIn labelled) = annotations labelled.
Proof.
  apply (view_events_keep_annotations picture_host ClickZoomIn
           {| ui := labelled; pending := [] |}
           {| ui := handleZoomIn labelled; pending := [] |});
    reflexivity.
Defined.

End Invariants.

(** ** More on saving, importing and loading *)

Ltac crush :=
  intros;
  repeat match goal with
  | H : _ ∈ [] |- _ => by apply elem_of_nil in H
  | H : _ ∈ _ :: _ |- _ => apply elem_of_cons in H as [H|H]
  | H : _ \/ _ |- _ => destruct H
  | H : ex _ |- _ => destruct H
  | H : _ /\ _ |- _ => destruct H
  | H1 : ?x = _, H2 : ?x = _ |- _ => rewrite H1 in H2
  | _ => progress simplify_eq
  end;
  try done; try congruence.

Section Files.

Implicit Types (st : State) (h : Host).

(** X18: a save never changes the state and leaves no callback.  It writes
    a file only at the non-empty path the dialog returned, and the text it
    writes is the serialized document; a dismissed dialog ends the save
    silently; a rejected write raises the failure alert and nothing else. *)
Theorem handleSave_writes_only_the_document h st :
  next (handleSave h st) = st
  /\ callback (handleSave h st) = None
  /\ (forall p c, SaveFile p c ∈ effects (handleSave h st) ->
        save_dialog h = Normal (Some p) /\ p ≠ ""
        /\ c = JSON_stringify h (projectState st)
        /\ effects (handleSave h st) = [SaveFile p c; Alert "项目已保存!"])
  /\ (forall err p, save_dialog h = Normal (Some p) -> p ≠ "" ->
        save_file h p (JSON_stringify h (projectState st)) = Throw err ->
        effects (handleSave h st) = [ConsoleError err; Alert "保存失败"])
  /\ (save_dialog h = Normal None \/ save_dialog h = Normal (Some "") ->
        effects (handleSave h st) = []).
Proof.
  unfold handleSave.
  destruct (save_dialog h) as [[p|]|err0] eqn:Hd; cbn.
  - destruct (String.eqb_spec p "") as [->|Hp]; cbn.
    + split_and!; crush.
    + destruct (save_file h p _) as [[]|err1] eqn:Hs; cbn; split_and!; crush.
  - split_and!; crush.
  - split_and!; crush.
Qed.

(** X19: an import changes no cell before the image has loaded.  When the
    image cannot be read it alerts the error and schedules nothing; when
    the dialog is dismissed it does nothing; the callback it schedules, if
    any, is for the chosen path and carries the canvas size of the state
    the import was started in. *)
Theorem handleImageImport_defers_to_onload h st :
  next (handleImageImport h st) = st
  /\ (forall cb, callback (handleImageImport h st) = Some cb ->
        exists path data size,
          open_dialog h = Normal (Some path)
          /\ read_image_as_base64 h (JStr path) = Normal data
          /\ decode_image h data = Some size
          /\ cb = ImportOnload {| src := data; natural := size |} path
                    (canvasSize st)
          /\ effects (handleImageImport h st) = [])
  /\ (forall err path, open_dialog h = Normal (Some path) ->
        read_image_as_base64 h (JStr path) = Throw err ->
        effects (handleImageImport h st)
          = [ConsoleError err; Alert ("导入图片失败: " +:+ err)]
        /\ callback (handleImageImport h st) = None)
  /\ (open_dialog h = Normal None ->
        effects (handleImageImport h st) = []
        /\ callback (handleImageImport h st) = None).
Proof.
  unfold handleImageImport.
  destruct (open_dialog h) as [[path|]|err0] eqn:Ho; cbn.
  - destruct (read_image_as_base64 h (JStr path)) as [data|err1] eqn:Hr; cbn.
    + split_and!; crush.
      unfold new_Image in *.
      destruct (decode_image h data) as [size|] eqn:Hdec;
        simplify_option_eq.
      by exists path, data, size.
    + split_and!; crush.
  - split_and!; crush.
  - split_and!; crush.
Qed.

(** X20: when the parsed file has none of the keys (an empty object, a
    number, a string, an array, a boolean), the load raises no alert and
    resets the document to the defaults: no annotations, no proof steps,
    font size 28, light theme, no selection. *)
Theorem handleLoad_defaults h st path content data :
  open_dialog h = Normal (Some path) ->
  read_file h path = Normal content ->
  JSON_parse h content = Normal data ->
  (forall k, get data k = Normal None) ->
  handleLoad h st
  = Some (unchanged (st |> setAnnotations [] |> setProofSteps []
                        |> setFontSize (Fin 28) |> setIsDarkMode false
                        |> setSelectedId None)).
Proof.
  intros Hopen Hread Hparse Hget. unfold handleLoad, handleLoad_try.
  rewrite Hopen; cbn. rewrite Hread; cbn. rewrite Hparse; cbn.
  by rewrite !Hget.
Qed.

(** Every parsed value except [null] and the objects with members has none
    of the keys. *)
Lemma get_of_non_object data k :
  match data with JNull | JObj (_ :: _) => False | _ => True end ->
  get data k = Normal None.
Proof. by destruct data as [| | | | |[|]]. Qed.

Lemma handleLoad_defaults_witness :
  handleLoad (file_host "[1, 2]") labelled
  = Some (unchanged (labelled |> setAnnotations [] |> setProofSteps []
                              |> setFontSize (Fin 28) |> setIsDarkMode false
                              |> setSelectedId None)).
Proof.
  apply (handleLoad_defaults (file_host "[1, 2]") labelled "p.proof" "[1, 2]"
           (JArr [JNum (Fin 1); JNum (Fin 2)])).
  - reflexivity.
  - reflexivity.
  - vm_compute. reflexivity.
  - intros k. by apply get_of_non_object.
Defined.

(** X21: when the file names an image that cannot be read, the load fails
    as a whole: it alerts the failure and no cell changes, not even the
    annotations and proof steps the file holds. *)
Theorem handleLoad_unreadable_image_keeps_state h st path content data p err :
  open_dialog h = Normal (Some path) ->
  read_file h path = Normal content ->
  JSON_parse h content = Normal data ->
  get data "imagePath" = Normal (Some p) ->
  ToBoolean (Some p) = true ->
  read_image_as_base64 h p = Throw err ->
  handleLoad h st = Some (failure "加载失败" err st).
Proof.
  intros Hopen Hread Hparse Hget Hp Himg. unfold handleLoad, handleLoad_try.
  rewrite Hopen; cbn. rewrite Hread; cbn. rewrite Hparse; cbn.
  rewrite Hget; cbn -[ToBoolean]. rewrite Hp; cbn. by rewrite Himg.
Qed.

Lemma handleLoad_unreadable_image_keeps_state_witness :
  handleLoad
    (file_host (JSON_text.stringify
                  (projectState (labelled |> setImagePath "gone.png"))))
    initial
  = Some (failure "加载失败" "No such file" initial).
Proof.
  apply (handleLoad_unreadable_image_keeps_state
           (file_host (JSON_text.stringify
                         (projectState (labelled |> setImagePath "gone.png"))))
           initial "p.proof"
           (JSON_text.stringify
              (projectState (labelled |> setImagePath "gone.png")))
           (projectState (labelled |> setImagePath "gone.png"))
           (JStr "gone.png")).
  - reflexivity.
  - vm_compute. reflexivity.
  - vm_compute. reflexivity.
  - reflexivity.
  - reflexivity.
  - reflexivity.
Defined.

(** X22: a load never changes the scale, the canvas size, the current
    colour or the pending token, also once its image callback has fired:
    the loaded picture is drawn at the scale the session had, not at a fit
    scale.  Without a callback the picture and its path stay too. *)
Theorem handleLoad_keeps_scale_and_tools h st r :
  handleLoad h st = Some r ->
  imageScale (settled r) = imageScale st
  /\ canvasSize (settled r) = canvasSize st
  /\ currentColor (settled r) = currentColor st
  /\ pendingText (settled r) = pendingText st
  /\ (callback r = None ->
      backgroundImage (settled r) = backgroundImage st
      /\ imagePath (settled r) = imagePath st).
Proof.
  intros H. unfold settled.
  destruct (handleLoad_cases _ _ _ H) as [[_ ->]|[(err & _ & ->)|(d & _ & Hd)]];
    [done..|].
  apply handleLoad_set_next in Hd
    as (? & ? & ? & ? & _ & _ & _ & _ & Hn & _ & Hcb).
  destruct (callback r) as [[]|]; [done| |]; by rewrite Hn.
Qed.

Lemma handleLoad_keeps_scale_and_tools_witness :
  match handleLoad (file_host (JSON_text.stringify (projectState labelled)))
          (handleZoomIn labelled) with
  | Some r =>
      imageScale (settled r) = imageScale (handleZoomIn labelled)
      /\ canvasSize (settled r) = canvasSize (handleZoomIn labelled)
      /\ currentColor (settled r) = currentColor (handleZoomIn labelled)
      /\ pendingText (settled r) = pendingText (handleZoomIn labelled)
      /\ (callback r = None ->
          backgroundImage (settled r) = backgroundImage (handleZoomIn labelled)
          /\ imagePath (settled r) = imagePath (handleZoomIn labelled))
  | None => True
  end.
Proof.
  destruct (handleLoad _ _) as [r|] eqn:Hload; [|exact I].
  apply (handleLoad_keeps_scale_and_tools _ _ _ Hload).
Defined.

End Files.
